(** * redis_bull_scaler.go: the KEDA external scaler for Bull queues

    A shallow embedding of [src/go/redis_bull_scaler.go] and the properties
    of its three gRPC operations and of its startup sequence.

    - Go's [int64] is [Z] with the wrap-around of the 64-bit two's
      complement written out ([Int64.wrap]).
    - Go's [string] is a sequence of bytes: [String.string].
    - [map[string]string] is stdpp's [gmap string string]; reading a key that
      is absent (or reading a nil map) gives the zero value and [false].
    - A Go [error] is [option error]: [None] is [nil].
    - Everything the program does to the outside (lines written by package
      [log], commands handed to the Redis client, the listening socket, the
      gRPC server) is appended to a trace of events; what the outside
      answers is given by oracles that see the commands issued so far.
    - The trace stops at the boundary of the libraries: a command is
      recorded once, when the program calls the client for it. What the
      client then puts on the wire (nothing when the context is already
      cancelled, the same command again when it retries) is not part of
      the model; only the result the call returns is. *)

From Stdlib Require Import ZArith Lia Ascii String DecimalString.
From stdpp Require Import base gmap strings list.

Local Open Scope Z_scope.

(** ** Machine integers *)

Module Int64.

Definition min_int : Z := - 2 ^ 63.
Definition max_int : Z := 2 ^ 63 - 1.

Definition in_range (z : Z) : Prop := min_int <= z <= max_int.

(** The value an [int64] holds after an operation whose exact result is [z]. *)
Definition wrap (z : Z) : Z := (z + 2 ^ 63) mod 2 ^ 64 - 2 ^ 63.

Definition add (x y : Z) : Z := wrap (x + y).
Definition neg (x : Z) : Z := wrap (- x).

End Int64.

Module Uint64.

Definition max_uint : Z := 2 ^ 64 - 1.

Definition wrap (z : Z) : Z := z mod 2 ^ 64.

Definition add (x y : Z) : Z := wrap (x + y).
Definition mul (x y : Z) : Z := wrap (x * y).

End Uint64.

Abbreviation int64 := Z (only parsing).
Abbreviation uint64 := Z (only parsing).

(** ** Errors and formatting *)

(** An error value built by [fmt.Errorf], or handed back by the Redis client,
    by package [net] or by gRPC: all the program does with one is to test it
    against [nil], return it, or print its text. *)
Record error : Type := errorString { Error : string }.

Module fmt.

(** [%d] of an integer. *)
Definition d (z : Z) : string := NilZero.string_of_int (Z.to_int z).

(** [%v] of a boolean. *)
Definition v_bool (b : bool) : string := if b then "true" else "false".

(** [fmt.Errorf] of an already formatted message. *)
Definition Errorf (msg : string) : error := errorString msg.

End fmt.

(** ** Package strconv

    [strconv.ParseInt(s, 10, 64)] and [strconv.Atoi(s)] of the Go standard
    library, at the base and bit size the program calls them with (an [int]
    is 64 bits wide). With a base other than 0 an underscore is a syntax
    error like any other character that is not a digit. *)

Module strconv.

Variant Err := ErrSyntax | ErrRange.

Record NumError := { Func : string; Num : string; Err_ : Err }.

Definition syntaxError (fn str : string) : NumError :=
  {| Func := fn; Num := str; Err_ := ErrSyntax |}.
Definition rangeError (fn str : string) : NumError :=
  {| Func := fn; Num := str; Err_ := ErrRange |}.

Definition byte (c : ascii) : Z := Z.of_N (N_of_ascii c).

(** [c | ('x' - 'X')] *)
Definition lower (c : Z) : Z := Z.lor c (byte "x" - byte "X").

Definition base : Z := 10.
Definition bitSize : Z := 64.

(** The smallest number such that [cutoff * base > maxUint64]. *)
Definition cutoff : Z := Uint64.max_uint / base + 1.

(** [uint64(1)<<uint(bitSize) - 1], computed in [uint64]. *)
Definition maxVal : Z := Uint64.wrap (Uint64.wrap (Z.shiftl 1 bitSize) - 1).

(** The value of a byte as a digit, the [switch] in the loop of
    [ParseUint]: [None] is its [default] case, a syntax error. *)
Definition digit_of (c : Z) : option Z :=
  if (byte "0" <=? c) && (c <=? byte "9") then Some (c - byte "0")
  else if (byte "a" <=? lower c) && (lower c <=? byte "z")
       then Some (lower c - byte "a" + 10)
       else None.

(** The digit loop of [ParseUint]. *)
Fixpoint ParseUint_digits (s : string) (n : uint64) : uint64 * option Err :=
  match s with
  | EmptyString => (n, None)
  | String ch rest =>
      match digit_of (byte ch) with
      | None => (0, Some ErrSyntax)
      | Some d =>
          if d >=? base then (0, Some ErrSyntax)
          else if n >=? cutoff then (maxVal, Some ErrRange)
          else
            let n := Uint64.mul n base in
            let n1 := Uint64.add n d in
            if (n1 <? n) || (n1 >? maxVal) then (maxVal, Some ErrRange)
            else ParseUint_digits rest n1
      end
  end.

Definition ParseUint (s : string) : uint64 * option NumError :=
  if String.eqb s "" then (0, Some (syntaxError "ParseUint" s))
  else
    match ParseUint_digits s 0 with
    | (n, None) => (n, None)
    | (n, Some ErrSyntax) => (n, Some (syntaxError "ParseUint" s))
    | (n, Some ErrRange) => (n, Some (rangeError "ParseUint" s))
    end.

Definition ParseInt (s : string) : int64 * option NumError :=
  match s with
  | EmptyString => (0, Some (syntaxError "ParseInt" s))
  | String c0 rest =>
      let s0 := s in
      (* Pick off leading sign. *)
      let '(neg, s) :=
        if Ascii.eqb c0 "+" then (false, rest)
        else if Ascii.eqb c0 "-" then (true, rest)
        else (false, s) in
      (* Convert unsigned and check range. *)
      let '(un, err) := ParseUint s in
      match err with
      | Some {| Err_ := ErrSyntax |} => (0, Some (syntaxError "ParseInt" s0))
      | _ =>
          let cutoff := Z.shiftl 1 (bitSize - 1) in
          if negb neg && (un >=? cutoff) then
            (cutoff - 1, Some (rangeError "ParseInt" s0))
          else if neg && (un >? cutoff) then
            (- cutoff, Some (rangeError "ParseInt" s0))
          else
            let n := Int64.wrap un in
            let n := if neg then Int64.neg n else n in
            (n, None)
      end
  end.

(** The digit loop of the fast path of [Atoi]: [ch -= '0'] is computed in
    a byte. *)
Fixpoint Atoi_digits (s : string) (n : Z) : option Z :=
  match s with
  | EmptyString => Some n
  | String ch rest =>
      let ch := (byte ch - byte "0") mod 256 in
      if ch >? 9 then None
      else Atoi_digits rest (Int64.wrap (Int64.wrap (n * 10) + ch))
  end.

Definition Atoi (s : string) : Z * option NumError :=
  let sLen := Z.of_nat (String.length s) in
  if (0 <? sLen) && (sLen <? 19) then
    (* Fast path for small integers that fit int type. *)
    match s with
    | EmptyString => (0, Some (syntaxError "Atoi" s))
    | String c0 rest =>
        let s0 := s in
        let signed := Ascii.eqb c0 "-" || Ascii.eqb c0 "+" in
        let s := if signed then rest else s in
        if signed && (Z.of_nat (String.length s) <? 1) then
          (0, Some (syntaxError "Atoi" s0))
        else
          match Atoi_digits s 0 with
          | None => (0, Some (syntaxError "Atoi" s0))
          | Some n => (if Ascii.eqb c0 "-" then Int64.neg n else n, None)
          end
    end
  else
    (* Slow path for invalid, big, or underscored integers. *)
    match ParseInt s with
    | (i64, Some nerr) =>
        (i64, Some {| Func := "Atoi"; Num := Num nerr; Err_ := Err_ nerr |})
    | (i64, None) => (i64, None)
    end.

End strconv.

(** ** The outside world: events, outcomes, and the monad of the program *)

Variant context := Background | Incoming.

(** Commands the program asks the Redis client to run. *)
Variant command := PING | LLEN (key : string).

Variant event :=
  | Logged (line : string)                 (* a line written by package log *)
  | Listening (network address : string)   (* net.Listen bound the socket *)
  | Sent (cmd : command)                   (* the client was called for cmd *)
  | Registered                             (* the scaler is registered with gRPC *)
  | Serving.                               (* grpcServer.Serve was entered *)

Definition trace := list event.

Fixpoint commands (tr : trace) : list command :=
  match tr with
  | [] => []
  | Sent cmd :: tr => cmd :: commands tr
  | _ :: tr => commands tr
  end.

(** How a computation ends: it returns, the process exits ([os.Exit]), or a
    nil pointer is dereferenced. *)
Variant outcome (A : Type) :=
  | Return (a : A)
  | Exit (code : Z)
  | Panic.
Arguments Return {A} a.
Arguments Exit {A} code.
Arguments Panic {A}.

Definition M (A : Type) : Type := trace → outcome A * trace.

Definition ret {A} (a : A) : M A := fun tr => (Return a, tr).

Definition bind {A B} (m : M A) (k : A → M B) : M B :=
  fun tr =>
    match m tr with
    | (Return a, tr') => k a tr'
    | (Exit code, tr') => (Exit code, tr')
    | (Panic, tr') => (Panic, tr')
    end.

Definition emit (e : event) : M unit := fun tr => (Return tt, tr ++ [e]).

Definition panic {A} : M A := fun tr => (Panic, tr).

Notation "'let*' p ':=' m 'in' k" := (bind m (fun p => k))
  (at level 10, p pattern, m at level 100, k at level 200, only parsing).

Module log.

Definition Printf (line : string) : M unit := emit (Logged line).

(** [log.Fatalf] is [Printf] followed by [os.Exit(1)]. *)
Definition Fatalf {A} (line : string) : M A :=
  fun tr => (Exit 1, tr ++ [Logged line]).

End log.

Module redis.

Record Options := { Addr : string }.

(** A client is the server it talks to: what a call returns may depend on
    the context of the call and on the commands issued before it. The
    result is the one the call hands back after the retries of the client,
    if any. *)
Record Client := {
  ping_reply : context → list command → option error;
  llen_reply : context → string → list command → int64 * option error
}.

(** The servers that can be reached, by address. *)
Definition Network : Type := string → Client.

(** [redis.NewClient(opt)]: no connection is made before the first command. *)
Definition NewClient (net : Network) (opt : Options) : Client := net (Addr opt).

(** [c.Ping(ctx).Err()]: one call of the client, recorded once. *)
Definition Ping (c : Client) (ctx : context) : M (option error) :=
  fun tr => (Return (ping_reply c ctx (commands tr)), tr ++ [Sent PING]).

(** [c.LLen(ctx, key).Result()]: one call of the client, recorded once. *)
Definition LLen (c : Client) (ctx : context) (key : string)
  : M (int64 * option error) :=
  fun tr => (Return (llen_reply c ctx key (commands tr)), tr ++ [Sent (LLEN key)]).

End redis.

(** ** The generated package [externalscaler]: the messages of the protocol

    A request handed to a handler by gRPC is never nil; a message nested in
    it is a pointer that is nil when the caller left it out. *)

Module pb.

Record ScaledObjectRef := {
  Name : string;
  Namespace : string;
  ScalerMetadata : gmap string string
}.

Record GetMetricsRequest := {
  GetMetricsRequest_ScaledObjectRef : option ScaledObjectRef;
  GetMetricsRequest_MetricName : string
}.

Record IsActiveResponse := { Result : bool }.

Record MetricSpec := { MetricSpec_MetricName : string; TargetSize : int64 }.

Record GetMetricSpecResponse := { MetricSpecs : list MetricSpec }.

Record MetricValue := { MetricValue_MetricName : string; MetricValue_MetricValue : int64 }.

Record GetMetricsResponse := { MetricValues : list MetricValue }.

End pb.

(** ** The scaler *)

(** [server], lines 17-20. *)
Record server := { redisClient : redis.Client }.

(** [getMetadataValue], lines 32-38. *)
Definition getMetadataValue (metadata : gmap string string) (key : string)
  : string * option error :=
  let '(value, exists_) :=
    match metadata !! key with
    | Some v => (v, true)
    | None => (""%string, false)
    end in
  if negb exists_ || String.eqb value "" then
    (""%string, Some (fmt.Errorf ("required metadata " +:+ key +:+ " is missing or empty")))
  else
    (value, None).

(** [IsActive], lines 80-112. *)
Definition IsActive (s : server) (ctx : context) (req : pb.ScaledObjectRef)
  : M (pb.IsActiveResponse * option error) :=
  let* _ := log.Printf ("[IsActive] Called for ScaledObject: "
                        +:+ pb.Namespace req +:+ "/" +:+ pb.Name req) in
  let '(waitList, err) := getMetadataValue (pb.ScalerMetadata req) "waitList" in
  match err with
  | Some e =>
      let* _ := log.Printf ("[IsActive] Error getting waitList: " +:+ Error e) in
      ret ({| pb.Result := false |}, err)
  | None =>
  let '(activeList, err) := getMetadataValue (pb.ScalerMetadata req) "activeList" in
  match err with
  | Some e =>
      let* _ := log.Printf ("[IsActive] Error getting activeList: " +:+ Error e) in
      ret ({| pb.Result := false |}, err)
  | None =>
  let* _ := log.Printf ("[IsActive] Using queues: wait='" +:+ waitList
                        +:+ "', active='" +:+ activeList +:+ "'") in
  let* (waitLen, err) := redis.LLen (redisClient s) ctx waitList in
  match err with
  | Some e =>
      let* _ := log.Printf ("[IsActive] Error getting length of wait list '"
                            +:+ waitList +:+ "': " +:+ Error e) in
      ret ({| pb.Result := false |}, err)
  | None =>
  let* (activeLen, err) := redis.LLen (redisClient s) ctx activeList in
  match err with
  | Some e =>
      let* _ := log.Printf ("[IsActive] Error getting length of active list '"
                            +:+ activeList +:+ "': " +:+ Error e) in
      ret ({| pb.Result := false |}, err)
  | None =>
  let result := Int64.add waitLen activeLen >? 0 in
  let* _ := log.Printf ("[IsActive] wait=" +:+ fmt.d waitLen
                        +:+ ", active=" +:+ fmt.d activeLen
                        +:+ ", total=" +:+ fmt.d (Int64.add waitLen activeLen)
                        +:+ ", result=" +:+ fmt.v_bool result) in
  ret ({| pb.Result := result |}, None)
  end end end end.

(** [GetMetricSpec], lines 115-126. *)
Definition GetMetricSpec (s : server) (ctx : context) (req : pb.ScaledObjectRef)
  : M (pb.GetMetricSpecResponse * option error) :=
  let* _ := log.Printf ("[GetMetricSpec] Called for ScaledObject: "
                        +:+ pb.Namespace req +:+ "/" +:+ pb.Name req) in
  let spec := {| pb.MetricSpec_MetricName := "bull_queue_length";
                 pb.TargetSize := 1 |} in
  let* _ := log.Printf ("[GetMetricSpec] Returning spec: metricName="
                        +:+ pb.MetricSpec_MetricName spec
                        +:+ ", targetSize=" +:+ fmt.d (pb.TargetSize spec)) in
  ret ({| pb.MetricSpecs := [spec] |}, None).

(** [GetMetrics], lines 129-182. *)
Definition GetMetrics (s : server) (ctx : context) (req : pb.GetMetricsRequest)
  : M (pb.GetMetricsResponse * option error) :=
  match pb.GetMetricsRequest_ScaledObjectRef req with
  | None => panic
  | Some ref =>
  let* _ := log.Printf ("[GetMetrics] Called for ScaledObject: "
                        +:+ pb.Namespace ref +:+ "/" +:+ pb.Name ref) in
  let '(waitList, err) := getMetadataValue (pb.ScalerMetadata ref) "waitList" in
  match err with
  | Some e =>
      let* _ := log.Printf ("[GetMetrics] Error getting waitList: " +:+ Error e) in
      ret ({| pb.MetricValues := [] |}, err)
  | None =>
  let '(activeList, err) := getMetadataValue (pb.ScalerMetadata ref) "activeList" in
  match err with
  | Some e =>
      let* _ := log.Printf ("[GetMetrics] Error getting activeList: " +:+ Error e) in
      ret ({| pb.MetricValues := [] |}, err)
  | None =>
  let '(maxPodsStr, err) := getMetadataValue (pb.ScalerMetadata ref) "maxPods" in
  match err with
  | Some e =>
      let* _ := log.Printf ("[GetMetrics] Error getting maxPods: " +:+ Error e) in
      ret ({| pb.MetricValues := [] |}, err)
  | None =>
  let '(maxPods, perr) := strconv.ParseInt maxPodsStr in
  if bool_decide (perr ≠ None) || (maxPods <=? 0) then
    let* _ := log.Printf ("[GetMetrics] Invalid maxPods value: " +:+ maxPodsStr
                          +:+ " (must be a positive integer)") in
    ret ({| pb.MetricValues := [] |},
         Some (fmt.Errorf ("maxPods must be a positive integer, got: " +:+ maxPodsStr)))
  else
  let* _ := log.Printf ("[GetMetrics] Using queues: wait='" +:+ waitList
                        +:+ "', active='" +:+ activeList
                        +:+ "', maxPods=" +:+ fmt.d maxPods) in
  let* (waitLen, err) := redis.LLen (redisClient s) ctx waitList in
  match err with
  | Some e =>
      let* _ := log.Printf ("[GetMetrics] Error getting length of wait list '"
                            +:+ waitList +:+ "': " +:+ Error e) in
      ret ({| pb.MetricValues := [] |}, err)
  | None =>
  let* (activeLen, err) := redis.LLen (redisClient s) ctx activeList in
  match err with
  | Some e =>
      let* _ := log.Printf ("[GetMetrics] Error getting length of active list '"
                            +:+ activeList +:+ "': " +:+ Error e) in
      ret ({| pb.MetricValues := [] |}, err)
  | None =>
  let total := Int64.add waitLen activeLen in
  let metricValue := total in
  let metricValue := if metricValue >? maxPods then maxPods else metricValue in
  let* _ := log.Printf ("[GetMetrics] wait=" +:+ fmt.d waitLen
                        +:+ ", active=" +:+ fmt.d activeLen
                        +:+ ", total=" +:+ fmt.d total
                        +:+ ", capped=" +:+ fmt.d metricValue) in
  ret ({| pb.MetricValues :=
            [{| pb.MetricValue_MetricName := "bull_queue_length";
                pb.MetricValue_MetricValue := metricValue |}] |}, None)
  end end end end end
  end.

(** ** Startup *)

(** What the process finds when it starts: its environment, whether the
    port can be bound, the Redis server behind each address, and the error
    with which [Serve] returns when it returns. *)
Record World := {
  environ : gmap string string;
  listen_reply : string → string → option error;
  redis_at : redis.Network;
  serve_reply : error
}.

Module os.

(** [os.Getenv]: the empty string when the variable is not set. *)
Definition Getenv (w : World) (key : string) : string :=
  default ""%string (environ w !! key).

End os.

Module net.

Record Listener := { Network : string; Address : string }.

Definition Listen (w : World) (network address : string)
  : M (option Listener * option error) :=
  match listen_reply w network address with
  | Some e => ret (None, Some e)
  | None =>
      let* _ := emit (Listening network address) in
      ret (Some {| Network := network; Address := address |}, None)
  end.

End net.

Module grpc.

Variant Server := mkServer.

Definition NewServer : M Server := ret mkServer.

(** [pb.RegisterExternalScalerServer(grpcServer, srv)] *)
Definition RegisterExternalScalerServer (g : Server) (srv : server) : M unit :=
  emit Registered.

(** [grpcServer.Serve(lis)]: accepts connections on the listener and
    dispatches the calls to the handlers for as long as the listener
    accepts. It returns nil only after [Stop] or [GracefulStop], which the
    program never calls: when it returns, it returns an error. The run of
    [main] is described up to that return; what the handlers do in the
    meantime, on their own goroutines, is described by [IsActive],
    [GetMetricSpec] and [GetMetrics], and a run in which [Serve] never
    returns, or in which a handler panics, has no more of [main] to
    describe. *)
Definition Serve (w : World) (g : Server) (lis : option net.Listener)
  : M (option error) :=
  let* _ := emit Serving in
  ret (Some (serve_reply w)).

End grpc.

(** [getEnv], lines 23-29. *)
Definition getEnv (w : World) (key : string) : M string :=
  let val := os.Getenv w key in
  if String.eqb val "" then
    log.Fatalf ("Missing required env var: " +:+ key)
  else
    ret val.

(** [validatePortNumber], lines 41-50. *)
Definition validatePortNumber (portStr : string) : option error :=
  let '(port, err) := strconv.Atoi portStr in
  match err with
  | Some _ =>
      Some (fmt.Errorf ("port must be a valid number, got: " +:+ portStr))
  | None =>
      if (port <=? 0) || (port >? 65535) then
        Some (fmt.Errorf ("port must be between 1 and 65535, got: " +:+ fmt.d port))
      else None
  end.

(** [NewServer], lines 53-77. *)
Definition NewServer (w : World) : M server :=
  let* redisHost := getEnv w "REDIS_HOST" in
  let* redisPort := getEnv w "REDIS_PORT" in
  (* Validate port number *)
  match validatePortNumber redisPort with
  | Some e => log.Fatalf ("Invalid REDIS_PORT: " +:+ Error e)
  | None =>
  let rdb := redis.NewClient (redis_at w)
               {| redis.Addr := redisHost +:+ ":" +:+ redisPort |} in
  (* Test Redis connection *)
  let* err := redis.Ping rdb Background in
  match err with
  | Some e => log.Fatalf ("Failed to connect to Redis: " +:+ Error e)
  | None =>
  let* _ := log.Printf ("Connected to Redis at " +:+ redisHost +:+ ":" +:+ redisPort) in
  let* _ := log.Printf "External scaler ready - queue configuration will come from ScaledJob metadata" in
  ret {| redisClient := rdb |}
  end end.

(** [main], lines 184-196. *)
Definition main (w : World) : M unit :=
  let port := 8080 in
  let* (lis, err) := net.Listen w "tcp" (":" +:+ fmt.d port) in
  match err with
  | Some e => log.Fatalf ("Failed to listen: " +:+ Error e)
  | None =>
  let* grpcServer := grpc.NewServer in
  let* srv := NewServer w in
  let* _ := grpc.RegisterExternalScalerServer grpcServer srv in
  let* _ := log.Printf ("Starting gRPC server on :" +:+ fmt.d port) in
  let* err := grpc.Serve w grpcServer lis in
  match err with
  | Some e => log.Fatalf ("Failed to serve: " +:+ Error e)
  | None => ret tt
  end end.

(** The exit status of the process: 1 after [log.Fatalf], 2 after a panic,
    0 when [main] returns. *)
Definition exit_status {A} (o : outcome A) : Z :=
  match o with
  | Return _ => 0
  | Exit code => code
  | Panic => 2
  end.

(** The position of the first event of a trace that satisfies [p]. *)
Fixpoint first_index (p : event → bool) (tr : trace) : option nat :=
  match tr with
  | [] => None
  | e :: tr => if p e then Some O else S <$> first_index p tr
  end.

Definition is_listening (e : event) : bool :=
  match e with Listening _ _ => true | _ => false end.
Definition is_ping (e : event) : bool :=
  match e with Sent PING => true | _ => false end.
Definition is_serving (e : event) : bool :=
  match e with Serving => true | _ => false end.

(** ** Vocabulary of the statements *)

(** A required key is present when it is mapped to a non-empty value, and
    absent when it is not mapped or mapped to the empty string. *)
Definition present (metadata : gmap string string) (key value : string) : Prop :=
  metadata !! key = Some value ∧ value ≠ ""%string.

Definition absent (metadata : gmap string string) (key : string) : Prop :=
  metadata !! key = None ∨ metadata !! key = Some ""%string.

(** The two validation errors. *)
Definition MissingMetadata (key : string) : error :=
  errorString ("required metadata " +:+ key +:+ " is missing or empty").

Definition InvalidCeiling (value : string) : error :=
  errorString ("maxPods must be a positive integer, got: " +:+ value).

(** Decimal notation, independently of [strconv]: an optional sign followed
    by one or more decimal digits. *)
Definition is_digit (c : ascii) : bool :=
  (48 <=? strconv.byte c) && (strconv.byte c <=? 57).

Fixpoint digits_value (s : string) (acc : Z) : option Z :=
  match s with
  | EmptyString => Some acc
  | String c rest =>
      if is_digit c then digits_value rest (acc * 10 + (strconv.byte c - 48))
      else None
  end.

Definition unsigned_value (s : string) : option Z :=
  match s with
  | EmptyString => None
  | _ => digits_value s 0
  end.

Definition decimal_value (s : string) : option Z :=
  match s with
  | EmptyString => None
  | String c rest =>
      if Ascii.eqb c "+" then unsigned_value rest
      else if Ascii.eqb c "-" then Z.opp <$> unsigned_value rest
      else unsigned_value s
  end.

(** [value] encodes the strictly positive 64-bit integer [n]. *)
Definition positive_int64 (value : string) (n : Z) : Prop :=
  decimal_value value = Some n ∧ 0 < n <= Int64.max_int.

(** Valid metadata: both queue names and the ceiling. *)
Definition valid_metadata (metadata : gmap string string)
    (waitList activeList : string) (maxPods : Z) : Prop :=
  present metadata "waitList" waitList ∧
  present metadata "activeList" activeList ∧
  ∃ value, present metadata "maxPods" value ∧ positive_int64 value maxPods.

Definition validation_error (e : error) : Prop :=
  (∃ key, e = MissingMetadata key) ∨ (∃ value, e = InvalidCeiling value).

(** The three operations of the protocol, each called on a scale target,
    and the error it hands back to the caller. *)
Variant operation := OpIsActive | OpGetMetricSpec | OpGetMetrics.

Definition metrics_request (ref : pb.ScaledObjectRef) : pb.GetMetricsRequest :=
  {| pb.GetMetricsRequest_ScaledObjectRef := Some ref;
     pb.GetMetricsRequest_MetricName := "bull_queue_length" |}.

Definition call (s : server) (ctx : context) (op : operation)
    (ref : pb.ScaledObjectRef) : M (option error) :=
  match op with
  | OpIsActive => let* (_, err) := IsActive s ctx ref in ret err
  | OpGetMetricSpec => let* (_, err) := GetMetricSpec s ctx ref in ret err
  | OpGetMetrics => let* (_, err) := GetMetrics s ctx (metrics_request ref) in ret err
  end.

(** The keys an operation resolves, in the order in which it resolves them. *)
Definition resolved_keys (op : operation) : list string :=
  match op with
  | OpIsActive => ["waitList"; "activeList"]%string
  | OpGetMetricSpec => []
  | OpGetMetrics => ["waitList"; "activeList"; "maxPods"]%string
  end.

Definition absentb (metadata : gmap string string) (key : string) : bool :=
  match metadata !! key with
  | None => true
  | Some value => String.eqb value ""
  end.

(** The first key of a list, in its order, that is absent. *)
Fixpoint first_absent (metadata : gmap string string) (keys : list string)
  : option string :=
  match keys with
  | [] => None
  | key :: keys =>
      if absentb metadata key then Some key else first_absent metadata keys
  end.

(** Resolution of the metadata fails for an operation when one of the keys
    it resolves is absent or, for the one operation that reads the ceiling,
    when the ceiling does not encode a strictly positive 64-bit integer. *)
Definition resolution_fails (op : operation) (metadata : gmap string string) : Prop :=
  (∃ key, key ∈ resolved_keys op ∧ absent metadata key)
  ∨ (op = OpGetMetrics
     ∧ ∃ value, present metadata "maxPods" value ∧ ¬ ∃ n, positive_int64 value n).

(** The ways in which [IsActive] fails, each with the error of the step that
    failed: one of the two queue names does not resolve, or one of the two
    reads of the store reports an error. *)
Inductive IsActive_fails (s : server) (ctx : context)
    (req : pb.ScaledObjectRef) (tr : trace) : error → Prop :=
  | fails_waitList :
      absent (pb.ScalerMetadata req) "waitList" →
      IsActive_fails s ctx req tr (MissingMetadata "waitList")
  | fails_activeList waitList :
      present (pb.ScalerMetadata req) "waitList" waitList →
      absent (pb.ScalerMetadata req) "activeList" →
      IsActive_fails s ctx req tr (MissingMetadata "activeList")
  | fails_wait_read waitList activeList w e :
      present (pb.ScalerMetadata req) "waitList" waitList →
      present (pb.ScalerMetadata req) "activeList" activeList →
      redis.llen_reply (redisClient s) ctx waitList (commands tr) = (w, Some e) →
      IsActive_fails s ctx req tr e
  | fails_active_read waitList activeList w a e :
      present (pb.ScalerMetadata req) "waitList" waitList →
      present (pb.ScalerMetadata req) "activeList" activeList →
      redis.llen_reply (redisClient s) ctx waitList (commands tr) = (w, None) →
      redis.llen_reply (redisClient s) ctx activeList
        (commands tr ++ [LLEN waitList]) = (a, Some e) →
      IsActive_fails s ctx req tr e.

(** A store whose every read fails with [e]. *)
Definition unavailable_store (e : error) : server :=
  {| redisClient :=
       {| redis.ping_reply := fun _ _ => Some e;
          redis.llen_reply := fun _ _ _ => (0, Some e) |} |}.

(** The metadata of the deployment examples, with a given ceiling. *)
Definition queue_metadata (maxPods : string) : gmap string string :=
  {[ "waitList"%string := "bull:test-queue:wait"%string;
     "activeList"%string := "bull:test-queue:active"%string;
     "maxPods"%string := maxPods ]}.

(** A world in which startup gets as far as the handshake with the store:
    the port can be bound and the environment names a host and a valid
    port; [ping] is what the store answers to the handshake. *)
Definition sample_world (ping : option error) : World :=
  {| environ := {[ "REDIS_HOST"%string := "localhost"%string;
                   "REDIS_PORT"%string := "6379"%string ]};
     listen_reply := fun _ _ => None;
     redis_at := fun _ => {| redis.ping_reply := fun _ _ => ping;
                             redis.llen_reply := fun _ _ _ => (0, None) |};
     serve_reply := errorString "use of closed network connection" |}.

(** A store whose every list has the length given for its name. *)
Definition sample_store (lengths : gmap string Z) : server :=
  {| redisClient :=
       {| redis.ping_reply := fun _ _ => None;
          redis.llen_reply := fun _ key _ => (default 0 (lengths !! key), None) |} |}.

Definition sample_ref (metadata : gmap string string) : pb.ScaledObjectRef :=
  {| pb.Name := "test-worker-job"; pb.Namespace := "bullmq-test";
     pb.ScalerMetadata := metadata |}.

Definition sample_request (metadata : gmap string string) : pb.GetMetricsRequest :=
  metrics_request (sample_ref metadata).

(** A variable of the environment is set when it holds a non-empty value. *)
Definition env_set (w : World) (key value : string) : Prop :=
  environ w !! key = Some value ∧ value ≠ ""%string.

Definition env_unset (w : World) (key : string) : Prop :=
  environ w !! key = None ∨ environ w !! key = Some ""%string.

(** Startup is stopped by its configuration: the port cannot be bound, a
    variable is not set, or REDIS_PORT is not a port number. *)
Definition configuration_fails (w : World) : Prop :=
  (∃ e, listen_reply w "tcp" ":8080" = Some e)
  ∨ env_unset w "REDIS_HOST"
  ∨ env_unset w "REDIS_PORT"
  ∨ (∃ port e, env_set w "REDIS_PORT" port ∧ validatePortNumber port = Some e).

(** Startup gets through: the port is bound, both variables are set, the
    port number is valid and the store answers the ping. *)
Definition configuration_ok (w : World) (host port : string) : Prop :=
  listen_reply w "tcp" ":8080" = None
  ∧ env_set w "REDIS_HOST" host
  ∧ env_set w "REDIS_PORT" port
  ∧ validatePortNumber port = None.

Definition is_registered (e : event) : bool :=
  match e with Registered => true | _ => false end.

(** The commands a call may send: reads of the lengths of the lists named
    by waitList and activeList. *)
Definition queue_read (metadata : gmap string string) (cmd : command) : Prop :=
  ∃ key name, (key = "waitList"%string ∨ key = "activeList"%string)
              ∧ metadata !! key = Some name ∧ cmd = LLEN name.

(** A world in which no variable of the environment is set. *)
Definition bare_world : World :=
  {| environ := ∅;
     listen_reply := fun _ _ => None;
     redis_at := fun _ => {| redis.ping_reply := fun _ _ => None;
                             redis.llen_reply := fun _ _ _ => (0, None) |};
     serve_reply := errorString "use of closed network connection" |}.

(** * Properties *)

(** ** 64-bit arithmetic *)

Lemma Int64_wrap_id z : Int64.in_range z → Int64.wrap z = z.
Proof.
  unfold Int64.in_range, Int64.min_int, Int64.max_int, Int64.wrap. intros H.
  rewrite Z.mod_small; lia.
Qed.

Lemma Int64_add_exact x y :
  0 <= x → 0 <= y → x + y <= Int64.max_int → Int64.add x y = x + y.
Proof.
  intros Hx Hy Hxy. apply Int64_wrap_id.
  unfold Int64.in_range, Int64.min_int, Int64.max_int in *. lia.
Qed.

Lemma Int64_wrap_range z : Int64.in_range (Int64.wrap z).
Proof.
  unfold Int64.in_range, Int64.min_int, Int64.max_int, Int64.wrap.
  pose proof (Z.mod_pos_bound (z + 2 ^ 63) (2 ^ 64)). lia.
Qed.

Example decimal_value_examples :
  decimal_value "1000000" = Some 1000000 ∧ decimal_value "-5" = Some (-5) ∧
  decimal_value "abc" = None ∧ decimal_value "+" = None ∧
  strconv.ParseInt "1000000" = (1000000, None) ∧
  strconv.ParseInt "-9223372036854775808" = (- 2 ^ 63, None) ∧
  strconv.ParseInt "9223372036854775807" = (2 ^ 63 - 1, None) ∧
  snd (strconv.ParseInt "9223372036854775808") ≠ None ∧
  snd (strconv.ParseInt "1_000") ≠ None ∧
  strconv.Atoi "6379" = (6379, None).
Proof. vm_compute. repeat split; discriminate. Qed.

(** ** Package strconv against decimal notation *)

Section Strconv.

Import strconv.

(** A decimal digit has its value; any other byte is a syntax error, either
    by the [default] case or as a letter, whose value is at least the base. *)
Lemma digit_of_spec (c : ascii) :
  if is_digit c
  then digit_of (byte c) = Some (byte c - 48) ∧ (byte c - 48 <? 10) = true
       ∧ (0 <=? byte c - 48) = true
  else digit_of (byte c) = None
       ∨ ∃ d, digit_of (byte c) = Some d ∧ (d >=? base) = true.
Proof.
  destruct c as [[] [] [] [] [] [] [] []]; vm_compute;
    first [ by repeat split | by left | right; eexists; by split ].
Qed.

Lemma digits_value_mono s : ∀ acc v,
  0 <= acc → digits_value s acc = Some v → acc <= v.
Proof.
  induction s as [| c s IH]; intros acc v Hacc; cbn.
  - intros [= <-]. lia.
  - pose proof (digit_of_spec c) as Hc. destruct (is_digit c); [| done].
    destruct Hc as (_ & Hlt & Hge). intros Hv. apply IH in Hv; lia.
Qed.

(** The loop of [ParseUint] computes the decimal value when it fits in 64
    bits, reports a range error when it does not, and reports an error when
    a byte is not a decimal digit. *)
Lemma cutoff_eq : cutoff = 1844674407370955162.
Proof. reflexivity. Qed.

Lemma max_uint_eq : Uint64.max_uint = 18446744073709551615.
Proof. reflexivity. Qed.

Lemma ParseUint_digits_spec s : ∀ acc,
  0 <= acc <= Uint64.max_uint →
  match digits_value s acc with
  | Some v =>
      if v <=? Uint64.max_uint then ParseUint_digits s acc = (v, None)
      else ParseUint_digits s acc = (maxVal, Some ErrRange)
  | None =>
      ParseUint_digits s acc = (0, Some ErrSyntax)
      ∨ ParseUint_digits s acc = (maxVal, Some ErrRange)
  end.
Proof.
  assert (HmaxVal : maxVal = 18446744073709551615) by reflexivity.
  induction s as [| c s IH]; intros acc Hacc; cbn [digits_value ParseUint_digits].
  - destruct (Z.leb_spec acc Uint64.max_uint); [done | lia].
  - pose proof (digit_of_spec c) as Hc. destruct (is_digit c).
    + destruct Hc as (-> & Hlt & Hge).
      replace (byte c - 48 >=? base) with false
        by (unfold base; lia).
      set (d := byte c - 48) in *.
      rewrite HmaxVal, cutoff_eq, max_uint_eq in *.
      destruct (Z.geb_spec acc 1844674407370955162) as [Hcut | Hcut].
      * (* acc * 10 already exceeds 64 bits *)
        destruct (digits_value s (acc * 10 + d)) as [v |] eqn:Hv; [| by right].
        apply digits_value_mono in Hv; [| lia].
        destruct (Z.leb_spec v 18446744073709551615); [lia | done].
      * assert (Hmul : Uint64.mul acc base = acc * 10).
        { unfold Uint64.mul, Uint64.wrap, base. apply Z.mod_small. lia. }
        rewrite Hmul.
        destruct (Z.leb_spec (acc * 10 + d) 18446744073709551615) as [Hfit | Hfit].
        -- assert (Hadd : Uint64.add (acc * 10) d = acc * 10 + d).
           { unfold Uint64.add, Uint64.wrap. apply Z.mod_small. lia. }
           rewrite Hadd.
           replace ((acc * 10 + d <? acc * 10) || (acc * 10 + d >? 18446744073709551615))
             with false by lia.
           apply IH. lia.
        -- assert (Hadd : Uint64.add (acc * 10) d = acc * 10 + d - 2 ^ 64).
           { unfold Uint64.add, Uint64.wrap.
             replace (acc * 10 + d) with (acc * 10 + d - 2 ^ 64 + 1 * 2 ^ 64) at 1 by lia.
             rewrite Z_mod_plus_full. apply Z.mod_small. lia. }
           rewrite Hadd.
           replace (acc * 10 + d - 2 ^ 64 <? acc * 10) with true by lia.
           cbn [orb].
           destruct (digits_value s (acc * 10 + d)) as [v |] eqn:Hv; [| by right].
           apply digits_value_mono in Hv; [| lia].
           destruct (Z.leb_spec v 18446744073709551615); [lia | done].
    + destruct Hc as [-> | (d & -> & ->)]; by left.
Qed.

Lemma unsigned_value_nonneg s v : unsigned_value s = Some v → 0 <= v.
Proof.
  destruct s as [| c s]; [done |]. unfold unsigned_value.
  apply digits_value_mono. lia.
Qed.

Lemma ParseUint_spec s :
  match unsigned_value s with
  | Some v =>
      if v <=? Uint64.max_uint then ParseUint s = (v, None)
      else ParseUint s = (maxVal, Some (rangeError "ParseUint" s))
  | None =>
      ParseUint s = (0, Some (syntaxError "ParseUint" s))
      ∨ ParseUint s = (maxVal, Some (rangeError "ParseUint" s))
  end.
Proof.
  destruct s as [| c s]; [by left |].
  unfold unsigned_value, ParseUint.
  replace (String c s =? "")%string with false by done.
  pose proof (ParseUint_digits_spec (String c s) 0) as H.
  rewrite max_uint_eq in *. specialize (H ltac:(lia)).
  destruct (digits_value (String c s) 0) as [v |].
  - destruct (v <=? 18446744073709551615); by rewrite H.
  - destruct H as [-> | ->]; [by left | by right].
Qed.

(** What [ParseInt] does once the sign is picked off. *)
Lemma ParseInt_unsigned (neg : bool) (s s0 : string) (n : Z) :
  (let '(un, err) := ParseUint s in
   match err with
   | Some {| Err_ := ErrSyntax |} => (0, Some (syntaxError "ParseInt" s0))
   | _ =>
       let cutoff := Z.shiftl 1 (bitSize - 1) in
       if negb neg && (un >=? cutoff) then
         (cutoff - 1, Some (rangeError "ParseInt" s0))
       else if neg && (un >? cutoff) then
         (- cutoff, Some (rangeError "ParseInt" s0))
       else
         let n := Int64.wrap un in
         let n := if neg then Int64.neg n else n in
         (n, None)
   end) = (n, None)
  ↔ ∃ v, unsigned_value s = Some v ∧ n = (if neg then - v else v)
         ∧ Int64.in_range n.
Proof.
  assert (HmaxVal : maxVal = 18446744073709551615) by reflexivity.
  assert (Hcut : Z.shiftl 1 (bitSize - 1) = 9223372036854775808) by reflexivity.
  pose proof (ParseUint_spec s) as H.
  pose proof (unsigned_value_nonneg s) as Hpos.
  rewrite max_uint_eq in H.
  unfold Int64.in_range, Int64.min_int, Int64.max_int.
  destruct (unsigned_value s) as [v |].
  - specialize (Hpos v eq_refl).
    destruct (Z.leb_spec v 18446744073709551615) as [Hv | Hv]; rewrite H; cbn zeta iota beta;
      rewrite Hcut.
    + unfold Int64.neg, Int64.wrap. destruct neg; cbn [negb andb].
      * destruct (Z.gtb_spec v 9223372036854775808) as [Hc | Hc].
        -- split; [done |]. intros (v' & [= <-] & -> & Hr). lia.
        -- assert (Hn : (- ((v + 2 ^ 63) mod 2 ^ 64 - 2 ^ 63) + 2 ^ 63) mod 2 ^ 64
                         - 2 ^ 63 = - v).
           { destruct (decide (v = 9223372036854775808)) as [-> | Hne]; [done |].
             rewrite (Z.mod_small (v + 2 ^ 63)) by lia.
             rewrite Z.mod_small by lia. lia. }
           rewrite Hn. split.
           ++ intros [= <-]. exists v. split_and!; [done | done | lia | lia].
           ++ intros (v' & [= <-] & -> & _). done.
      * destruct (Z.geb_spec v 9223372036854775808) as [Hc | Hc].
        -- split; [done |]. intros (v' & [= <-] & -> & Hr). lia.
        -- rewrite Z.mod_small by lia. split.
           ++ intros [= <-]. exists v. split_and!; [done | lia | lia | lia].
           ++ intros (v' & [= <-] & -> & _). f_equal. lia.
    + rewrite HmaxVal. destruct neg; cbn.
      * split; [done |]. intros (v' & [= <-] & -> & Hr). lia.
      * split; [done |]. intros (v' & [= <-] & -> & Hr). lia.
  - destruct H as [-> | ->]; cbn zeta iota beta.
    + split; [done |]. by intros (v' & [=] & _).
    + rewrite HmaxVal. destruct neg; cbn; (split; [done |]); by intros (v' & [=] & _).
Qed.

(** [ParseInt] succeeds exactly on the decimal notations of the 64-bit
    integers, and gives the integer denoted. *)
Lemma ParseInt_spec (s : string) (n : Z) :
  ParseInt s = (n, None) ↔ decimal_value s = Some n ∧ Int64.in_range n.
Proof.
  destruct s as [| c s]; [by split; [| intros [? _]] |].
  unfold ParseInt, decimal_value.
  destruct (Ascii.eqb c "+"); [| destruct (Ascii.eqb c "-")].
  - rewrite (ParseInt_unsigned false). split.
    + by intros (v & -> & -> & Hr).
    + intros [Hv Hr]. by exists n.
  - rewrite (ParseInt_unsigned true). split.
    + intros (v & -> & -> & Hr). done.
    + intros [Hv Hr]. destruct (unsigned_value s) as [v |]; [| done].
      injection Hv as <-. by exists v.
  - rewrite (ParseInt_unsigned false). split.
    + by intros (v & -> & -> & Hr).
    + intros [Hv Hr]. by exists n.
Qed.

Lemma ParseInt_result (s : string) :
  (∃ n, ParseInt s = (n, None)) ∨ (∃ n e, ParseInt s = (n, Some e)).
Proof. destruct (ParseInt s) as [n [e |]]; eauto. Qed.

End Strconv.

(** ** Metadata resolution *)

Section Resolver.

Implicit Types (metadata : gmap string string) (key value : string).

Lemma getMetadataValue_present metadata key value :
  present metadata key value → getMetadataValue metadata key = (value, None).
Proof.
  intros [Hk Hne]. unfold getMetadataValue. rewrite Hk. cbn.
  destruct (String.eqb_spec value ""); [contradiction | reflexivity].
Qed.

Lemma getMetadataValue_absent metadata key :
  absent metadata key →
  getMetadataValue metadata key = (""%string, Some (MissingMetadata key)).
Proof.
  intros [Hk | Hk]; unfold getMetadataValue; rewrite Hk; reflexivity.
Qed.

Lemma present_or_absent metadata key :
  (∃ value, present metadata key value) ∨ absent metadata key.
Proof.
  unfold present, absent. destruct (metadata !! key) as [value |]; [| by right; left].
  destruct (decide (value = ""%string)) as [-> | Hne]; [by right; right | left; eauto].
Qed.

Lemma absent_not_present metadata key value :
  absent metadata key → present metadata key value → False.
Proof. intros [Hk | Hk] [Hv Hne]; congruence. Qed.

(** C9. For every metadata mapping and key, [getMetadataValue] returns the
    mapped value with a nil error exactly when the key is mapped to a
    non-empty value; when the key is not mapped, or mapped to the empty
    string, it returns the error "required metadata <key> is missing or
    empty", which names the key, and the empty string, never a default. *)
Theorem getMetadataValue_spec metadata key :
  (∀ value, getMetadataValue metadata key = (value, None)
            ↔ present metadata key value)
  ∧ (getMetadataValue metadata key = (""%string, Some (MissingMetadata key))
     ↔ absent metadata key)
  ∧ (absent metadata key ↔ ¬ ∃ value, present metadata key value)
  ∧ Error (MissingMetadata key)
    = ("required metadata " +:+ key +:+ " is missing or empty").
Proof.
  split_and!; [intros value; split | split | split |].
  - intros Hget. destruct (present_or_absent metadata key) as [[v Hv] | Ha].
    + rewrite (getMetadataValue_present _ _ _ Hv) in Hget. by injection Hget as ->.
    + by rewrite (getMetadataValue_absent _ _ Ha) in Hget.
  - apply getMetadataValue_present.
  - intros Hget. destruct (present_or_absent metadata key) as [[v Hv] | Ha]; [| done].
    by rewrite (getMetadataValue_present _ _ _ Hv) in Hget.
  - apply getMetadataValue_absent.
  - intros Ha [v Hv]. by eapply absent_not_present.
  - intros Hno. destruct (present_or_absent metadata key) as [Hv | Ha]; done.
  - reflexivity.
Qed.

End Resolver.

(** ** Running the handlers *)

Ltac run :=
  unfold bind, ret, panic, log.Printf, log.Fatalf, emit, redis.LLen, redis.Ping;
  cbn beta iota zeta.

Lemma commands_app tr1 tr2 : commands (tr1 ++ tr2) = commands tr1 ++ commands tr2.
Proof.
  induction tr1 as [| [] tr1 IH]; cbn; [done | done | done | | done | done].
  by rewrite IH.
Qed.

Lemma commands_logged tr line : commands (tr ++ [Logged line]) = commands tr.
Proof. rewrite commands_app. cbn. by rewrite app_nil_r. Qed.

Lemma commands_sent tr cmd : commands (tr ++ [Sent cmd]) = commands tr ++ [cmd].
Proof. by rewrite commands_app. Qed.

Ltac sent := repeat first [rewrite commands_logged | rewrite commands_sent].

Section Handlers.

Variables (s : server) (ctx : context).

(** C8. Whatever the scale target and its metadata, [GetMetricSpec] returns
    the one metric specification named "bull_queue_length" with target size
    1 and a nil error, and sends no command to the store. *)
Theorem GetMetricSpec_constant (req : pb.ScaledObjectRef) (tr : trace) :
  fst (GetMetricSpec s ctx req tr)
  = Return ({| pb.MetricSpecs :=
                 [{| pb.MetricSpec_MetricName := "bull_queue_length";
                     pb.TargetSize := 1 |}] |}, None)
  ∧ commands (snd (GetMetricSpec s ctx req tr)) = commands tr.
Proof.
  unfold GetMetricSpec. run. split; [done |]. cbn [snd].
  by sent.
Qed.

Implicit Types (req : pb.ScaledObjectRef) (tr : trace).

Lemma IsActive_ok req tr waitList activeList w a :
  present (pb.ScalerMetadata req) "waitList" waitList →
  present (pb.ScalerMetadata req) "activeList" activeList →
  redis.llen_reply (redisClient s) ctx waitList (commands tr) = (w, None) →
  redis.llen_reply (redisClient s) ctx activeList (commands tr ++ [LLEN waitList])
    = (a, None) →
  ∃ tr', IsActive s ctx req tr
         = (Return ({| pb.Result := Int64.add w a >? 0 |}, None), tr')
         ∧ commands tr' = commands tr ++ [LLEN waitList; LLEN activeList].
Proof.
  intros Hw Ha Hrw Hra. unfold IsActive.
  rewrite (getMetadataValue_present _ _ _ Hw), (getMetadataValue_present _ _ _ Ha).
  run. sent. rewrite Hrw. cbn beta iota zeta. sent. rewrite Hra. cbn beta iota zeta.
  eexists. split; [reflexivity |]. sent. by rewrite <- app_assoc.
Qed.

Lemma IsActive_no_waitList req tr :
  absent (pb.ScalerMetadata req) "waitList" →
  ∃ tr', IsActive s ctx req tr
         = (Return ({| pb.Result := false |}, Some (MissingMetadata "waitList")), tr')
         ∧ commands tr' = commands tr.
Proof.
  intros Hw. unfold IsActive. rewrite (getMetadataValue_absent _ _ Hw). run.
  eexists. split; [reflexivity |]. by sent.
Qed.

Lemma IsActive_no_activeList req tr waitList :
  present (pb.ScalerMetadata req) "waitList" waitList →
  absent (pb.ScalerMetadata req) "activeList" →
  ∃ tr', IsActive s ctx req tr
         = (Return ({| pb.Result := false |}, Some (MissingMetadata "activeList")), tr')
         ∧ commands tr' = commands tr.
Proof.
  intros Hw Ha. unfold IsActive.
  rewrite (getMetadataValue_present _ _ _ Hw), (getMetadataValue_absent _ _ Ha). run.
  eexists. split; [reflexivity |]. by sent.
Qed.

Lemma IsActive_wait_fails req tr waitList activeList w e :
  present (pb.ScalerMetadata req) "waitList" waitList →
  present (pb.ScalerMetadata req) "activeList" activeList →
  redis.llen_reply (redisClient s) ctx waitList (commands tr) = (w, Some e) →
  ∃ tr', IsActive s ctx req tr = (Return ({| pb.Result := false |}, Some e), tr')
         ∧ commands tr' = commands tr ++ [LLEN waitList].
Proof.
  intros Hw Ha Hrw. unfold IsActive.
  rewrite (getMetadataValue_present _ _ _ Hw), (getMetadataValue_present _ _ _ Ha).
  run. sent. rewrite Hrw. cbn beta iota zeta.
  eexists. split; [reflexivity |]. by sent.
Qed.

Lemma IsActive_active_fails req tr waitList activeList w a e :
  present (pb.ScalerMetadata req) "waitList" waitList →
  present (pb.ScalerMetadata req) "activeList" activeList →
  redis.llen_reply (redisClient s) ctx waitList (commands tr) = (w, None) →
  redis.llen_reply (redisClient s) ctx activeList (commands tr ++ [LLEN waitList])
    = (a, Some e) →
  ∃ tr', IsActive s ctx req tr = (Return ({| pb.Result := false |}, Some e), tr')
         ∧ commands tr' = commands tr ++ [LLEN waitList; LLEN activeList].
Proof.
  intros Hw Ha Hrw Hra. unfold IsActive.
  rewrite (getMetadataValue_present _ _ _ Hw), (getMetadataValue_present _ _ _ Ha).
  run. sent. rewrite Hrw. cbn beta iota zeta. sent. rewrite Hra. cbn beta iota zeta.
  eexists. split; [reflexivity |]. sent. by rewrite <- app_assoc.
Qed.

(** The ceiling: [ParseInt] and the test [err != nil || maxPods <= 0]. *)
Lemma ceiling_accepted value n :
  positive_int64 value n →
  strconv.ParseInt value = (n, None) ∧ (n <=? 0) = false.
Proof.
  intros [Hv Hn]. split; [| lia]. apply ParseInt_spec. split; [done |].
  unfold Int64.in_range, Int64.min_int, Int64.max_int in *. lia.
Qed.

Lemma ceiling_rejected value n (perr : option strconv.NumError) :
  (¬ ∃ n, positive_int64 value n) →
  strconv.ParseInt value = (n, perr) →
  bool_decide (perr ≠ None) || (n <=? 0) = true.
Proof.
  intros Hno Hp. destruct perr as [e |]; [done |]. cbn.
  apply ParseInt_spec in Hp as [Hv Hr].
  destruct (Z.leb_spec n 0) as [| Hpos]; [done |]. destruct Hno. exists n.
  split; [done |]. unfold Int64.in_range in Hr. lia.
Qed.

Implicit Types (mreq : pb.GetMetricsRequest) (ref : pb.ScaledObjectRef).

Lemma GetMetrics_nil mreq tr :
  pb.GetMetricsRequest_ScaledObjectRef mreq = None →
  GetMetrics s ctx mreq tr = (Panic, tr).
Proof. intros Href. unfold GetMetrics. by rewrite Href. Qed.

Lemma GetMetrics_no_waitList mreq ref tr :
  pb.GetMetricsRequest_ScaledObjectRef mreq = Some ref →
  absent (pb.ScalerMetadata ref) "waitList" →
  ∃ tr', GetMetrics s ctx mreq tr
         = (Return ({| pb.MetricValues := [] |}, Some (MissingMetadata "waitList")), tr')
         ∧ commands tr' = commands tr.
Proof.
  intros Href Hw. unfold GetMetrics. rewrite Href, (getMetadataValue_absent _ _ Hw).
  run. eexists. split; [reflexivity |]. by sent.
Qed.

Lemma GetMetrics_no_activeList mreq ref tr waitList :
  pb.GetMetricsRequest_ScaledObjectRef mreq = Some ref →
  present (pb.ScalerMetadata ref) "waitList" waitList →
  absent (pb.ScalerMetadata ref) "activeList" →
  ∃ tr', GetMetrics s ctx mreq tr
         = (Return ({| pb.MetricValues := [] |}, Some (MissingMetadata "activeList")), tr')
         ∧ commands tr' = commands tr.
Proof.
  intros Href Hw Ha. unfold GetMetrics.
  rewrite Href, (getMetadataValue_present _ _ _ Hw), (getMetadataValue_absent _ _ Ha).
  run. eexists. split; [reflexivity |]. by sent.
Qed.

Lemma GetMetrics_no_maxPods mreq ref tr waitList activeList :
  pb.GetMetricsRequest_ScaledObjectRef mreq = Some ref →
  present (pb.ScalerMetadata ref) "waitList" waitList →
  present (pb.ScalerMetadata ref) "activeList" activeList →
  absent (pb.ScalerMetadata ref) "maxPods" →
  ∃ tr', GetMetrics s ctx mreq tr
         = (Return ({| pb.MetricValues := [] |}, Some (MissingMetadata "maxPods")), tr')
         ∧ commands tr' = commands tr.
Proof.
  intros Href Hw Ha Hm. unfold GetMetrics.
  rewrite Href, (getMetadataValue_present _ _ _ Hw), (getMetadataValue_present _ _ _ Ha),
    (getMetadataValue_absent _ _ Hm).
  run. eexists. split; [reflexivity |]. by sent.
Qed.

Lemma GetMetrics_invalid_maxPods mreq ref tr waitList activeList value :
  pb.GetMetricsRequest_ScaledObjectRef mreq = Some ref →
  present (pb.ScalerMetadata ref) "waitList" waitList →
  present (pb.ScalerMetadata ref) "activeList" activeList →
  present (pb.ScalerMetadata ref) "maxPods" value →
  (¬ ∃ n, positive_int64 value n) →
  ∃ tr', GetMetrics s ctx mreq tr
         = (Return ({| pb.MetricValues := [] |}, Some (InvalidCeiling value)), tr')
         ∧ commands tr' = commands tr.
Proof.
  intros Href Hw Ha Hm Hbad. unfold GetMetrics.
  rewrite Href, (getMetadataValue_present _ _ _ Hw), (getMetadataValue_present _ _ _ Ha),
    (getMetadataValue_present _ _ _ Hm).
  destruct (strconv.ParseInt value) as [n perr] eqn:Hp.
  rewrite (ceiling_rejected _ _ _ Hbad Hp).
  run. eexists. split; [reflexivity |]. by sent.
Qed.

Lemma GetMetrics_wait_fails mreq ref tr waitList activeList maxPods w e :
  pb.GetMetricsRequest_ScaledObjectRef mreq = Some ref →
  valid_metadata (pb.ScalerMetadata ref) waitList activeList maxPods →
  redis.llen_reply (redisClient s) ctx waitList (commands tr) = (w, Some e) →
  ∃ tr', GetMetrics s ctx mreq tr = (Return ({| pb.MetricValues := [] |}, Some e), tr')
         ∧ commands tr' = commands tr ++ [LLEN waitList].
Proof.
  intros Href (Hw & Ha & value & Hm & Hpos) Hrw. unfold GetMetrics.
  rewrite Href, (getMetadataValue_present _ _ _ Hw), (getMetadataValue_present _ _ _ Ha),
    (getMetadataValue_present _ _ _ Hm).
  destruct (ceiling_accepted _ _ Hpos) as [Hp Hle].
  rewrite Hp. cbn beta iota zeta. rewrite bool_decide_false, Hle by (by intros H).
  cbn [orb].
  run. sent. rewrite Hrw. cbn beta iota zeta.
  eexists. split; [reflexivity |]. by sent.
Qed.

Lemma GetMetrics_active_fails mreq ref tr waitList activeList maxPods w a e :
  pb.GetMetricsRequest_ScaledObjectRef mreq = Some ref →
  valid_metadata (pb.ScalerMetadata ref) waitList activeList maxPods →
  redis.llen_reply (redisClient s) ctx waitList (commands tr) = (w, None) →
  redis.llen_reply (redisClient s) ctx activeList (commands tr ++ [LLEN waitList])
    = (a, Some e) →
  ∃ tr', GetMetrics s ctx mreq tr = (Return ({| pb.MetricValues := [] |}, Some e), tr')
         ∧ commands tr' = commands tr ++ [LLEN waitList; LLEN activeList].
Proof.
  intros Href (Hw & Ha & value & Hm & Hpos) Hrw Hra. unfold GetMetrics.
  rewrite Href, (getMetadataValue_present _ _ _ Hw), (getMetadataValue_present _ _ _ Ha),
    (getMetadataValue_present _ _ _ Hm).
  destruct (ceiling_accepted _ _ Hpos) as [Hp Hle].
  rewrite Hp. cbn beta iota zeta. rewrite bool_decide_false, Hle by (by intros H).
  cbn [orb].
  run. sent. rewrite Hrw. cbn beta iota zeta. sent. rewrite Hra. cbn beta iota zeta.
  eexists. split; [reflexivity |]. sent. by rewrite <- app_assoc.
Qed.

Lemma GetMetrics_ok mreq ref tr waitList activeList maxPods w a :
  pb.GetMetricsRequest_ScaledObjectRef mreq = Some ref →
  valid_metadata (pb.ScalerMetadata ref) waitList activeList maxPods →
  redis.llen_reply (redisClient s) ctx waitList (commands tr) = (w, None) →
  redis.llen_reply (redisClient s) ctx activeList (commands tr ++ [LLEN waitList])
    = (a, None) →
  ∃ tr', GetMetrics s ctx mreq tr
         = (Return ({| pb.MetricValues :=
                         [{| pb.MetricValue_MetricName := "bull_queue_length";
                             pb.MetricValue_MetricValue :=
                               if Int64.add w a >? maxPods then maxPods
                               else Int64.add w a |}] |}, None), tr')
         ∧ commands tr' = commands tr ++ [LLEN waitList; LLEN activeList].
Proof.
  intros Href (Hw & Ha & value & Hm & Hpos) Hrw Hra. unfold GetMetrics.
  rewrite Href, (getMetadataValue_present _ _ _ Hw), (getMetadataValue_present _ _ _ Ha),
    (getMetadataValue_present _ _ _ Hm).
  destruct (ceiling_accepted _ _ Hpos) as [Hp Hle].
  rewrite Hp. cbn beta iota zeta. rewrite bool_decide_false, Hle by (by intros H).
  cbn [orb].
  run. sent. rewrite Hrw. cbn beta iota zeta. sent. rewrite Hra. cbn beta iota zeta.
  eexists. split; [reflexivity |]. sent. by rewrite <- app_assoc.
Qed.

(** C1. With valid metadata and two successful reads of the store that
    return the lengths [w] and [a], [GetMetrics] reports the single value
    min(w + a, maxPods) under the name "bull_queue_length": the lengths are
    added first, in [int64], and only the sum is capped. For lengths whose
    sum fits in 64 bits that is the minimum of the exact sum and the
    ceiling, and the exact sum itself whenever it does not exceed the
    ceiling. *)
Theorem GetMetrics_value mreq ref tr waitList activeList maxPods w a :
  pb.GetMetricsRequest_ScaledObjectRef mreq = Some ref →
  valid_metadata (pb.ScalerMetadata ref) waitList activeList maxPods →
  redis.llen_reply (redisClient s) ctx waitList (commands tr) = (w, None) →
  redis.llen_reply (redisClient s) ctx activeList (commands tr ++ [LLEN waitList])
    = (a, None) →
  ∃ value,
    fst (GetMetrics s ctx mreq tr)
    = Return ({| pb.MetricValues :=
                   [{| pb.MetricValue_MetricName := "bull_queue_length";
                       pb.MetricValue_MetricValue := value |}] |}, None)
    ∧ value = Z.min (Int64.add w a) maxPods
    ∧ (0 <= w → 0 <= a → w + a <= Int64.max_int →
       value = Z.min (w + a) maxPods ∧ (w + a <= maxPods → value = w + a)).
Proof.
  intros Href Hvalid Hrw Hra.
  destruct (GetMetrics_ok _ _ tr _ _ _ _ _ Href Hvalid Hrw Hra) as (tr' & -> & _).
  eexists. split; [reflexivity |].
  assert (Hmin : (if Int64.add w a >? maxPods then maxPods else Int64.add w a)
                 = Z.min (Int64.add w a) maxPods).
  { destruct (Z.gtb_spec (Int64.add w a) maxPods); lia. }
  split; [exact Hmin |]. intros Hw Ha Hfit.
  rewrite Hmin, Int64_add_exact by done. lia.
Qed.

(** C2. With both queue names resolved and two successful reads of the
    store that return the lengths [w] and [a], [IsActive] answers with a
    nil error and the boolean (w + a) > 0, the sum being taken in [int64]:
    for lengths whose sum fits in 64 bits it is false when both are zero and
    true whenever the sum is positive. Valid metadata resolves both names;
    the ceiling plays no part. *)
Theorem IsActive_result req tr waitList activeList w a :
  present (pb.ScalerMetadata req) "waitList" waitList →
  present (pb.ScalerMetadata req) "activeList" activeList →
  redis.llen_reply (redisClient s) ctx waitList (commands tr) = (w, None) →
  redis.llen_reply (redisClient s) ctx activeList (commands tr ++ [LLEN waitList])
    = (a, None) →
  ∃ result,
    fst (IsActive s ctx req tr) = Return ({| pb.Result := result |}, None)
    ∧ result = (Int64.add w a >? 0)
    ∧ (w = 0 → a = 0 → result = false)
    ∧ (0 <= w → 0 <= a → w + a <= Int64.max_int →
       (result = true ↔ w + a > 0)).
Proof.
  intros Hw Ha Hrw Hra.
  destruct (IsActive_ok _ tr _ _ _ _ Hw Ha Hrw Hra) as (tr' & -> & _).
  eexists. split; [reflexivity |]. split; [reflexivity |]. split.
  - by intros -> ->.
  - intros Hw0 Ha0 Hfit. rewrite Int64_add_exact by done.
    destruct (Z.gtb_spec (w + a) 0); split; (done || lia).
Qed.

(** C7. Whenever [IsActive] fails, because a queue name does not resolve or
    because a read of the store reports an error, it returns to its caller
    a non-nil error, the very error of the step that failed; the failure is
    never turned into a nil error next to the answer false. *)
Theorem IsActive_failure_surfaces req tr e :
  IsActive_fails s ctx req tr e →
  ∃ resp, fst (IsActive s ctx req tr) = Return (resp, Some e).
Proof.
  intros [Hw | wl Hw Ha | wl al w e' Hw Ha Hrw | wl al w a e' Hw Ha Hrw Hra].
  - destruct (IsActive_no_waitList _ tr Hw) as (tr' & -> & _). by eexists.
  - destruct (IsActive_no_activeList _ tr _ Hw Ha) as (tr' & -> & _). by eexists.
  - destruct (IsActive_wait_fails _ tr _ _ _ _ Hw Ha Hrw) as (tr' & -> & _).
    by eexists.
  - destruct (IsActive_active_fails _ tr _ _ _ _ _ Hw Ha Hrw Hra) as (tr' & -> & _).
    by eexists.
Qed.

(** Conversely, a nil error comes with the answer computed from two
    successful reads: [IsActive] always returns, and returns a nil error
    only when nothing failed. *)
Lemma IsActive_nil_error req tr :
  (∃ e, IsActive_fails s ctx req tr e)
  ∨ (∃ waitList activeList w a,
       present (pb.ScalerMetadata req) "waitList" waitList
       ∧ present (pb.ScalerMetadata req) "activeList" activeList
       ∧ redis.llen_reply (redisClient s) ctx waitList (commands tr) = (w, None)
       ∧ redis.llen_reply (redisClient s) ctx activeList
           (commands tr ++ [LLEN waitList]) = (a, None)
       ∧ fst (IsActive s ctx req tr)
         = Return ({| pb.Result := Int64.add w a >? 0 |}, None)).
Proof.
  destruct (present_or_absent (pb.ScalerMetadata req) "waitList") as [[wl Hw] | Hw];
    [| left; eexists; by constructor 1].
  destruct (present_or_absent (pb.ScalerMetadata req) "activeList") as [[al Ha] | Ha];
    [| left; eexists; by econstructor 2].
  destruct (redis.llen_reply (redisClient s) ctx wl (commands tr))
    as [w [e |]] eqn:Hrw; [left; eexists; by econstructor 3 |].
  destruct (redis.llen_reply (redisClient s) ctx al (commands tr ++ [LLEN wl]))
    as [a [e |]] eqn:Hra; [left; eexists; by econstructor 4 |].
  right. exists wl, al, w, a. split_and!; try done.
  by destruct (IsActive_ok _ tr _ _ _ _ Hw Ha Hrw Hra) as (tr' & -> & _).
Qed.

(** *** Resolution before any read *)

Lemma positive_int64_dec value :
  (∃ n, positive_int64 value n) ∨ ¬ (∃ n, positive_int64 value n).
Proof.
  unfold positive_int64. destruct (decimal_value value) as [n |].
  - destruct (decide (0 < n <= Int64.max_int)); [left; eauto |].
    right. intros (n' & [= <-] & Hn). done.
  - right. by intros (n' & [=] & _).
Qed.

Lemma IsActive_resolution_fails req tr :
  absent (pb.ScalerMetadata req) "waitList"
  ∨ absent (pb.ScalerMetadata req) "activeList" →
  ∃ key tr', IsActive s ctx req tr
             = (Return ({| pb.Result := false |}, Some (MissingMetadata key)), tr')
             ∧ commands tr' = commands tr.
Proof.
  intros H.
  destruct (present_or_absent (pb.ScalerMetadata req) "waitList") as [[wl Hw] | Hw].
  - destruct H as [H | Ha]; [by destruct (absent_not_present _ _ _ H Hw) |].
    eexists. by apply IsActive_no_activeList with wl.
  - eexists. by apply IsActive_no_waitList.
Qed.

Lemma GetMetrics_resolution_fails mreq ref tr :
  pb.GetMetricsRequest_ScaledObjectRef mreq = Some ref →
  absent (pb.ScalerMetadata ref) "waitList"
  ∨ absent (pb.ScalerMetadata ref) "activeList"
  ∨ absent (pb.ScalerMetadata ref) "maxPods"
  ∨ (∃ value, present (pb.ScalerMetadata ref) "maxPods" value
              ∧ ¬ ∃ n, positive_int64 value n) →
  ∃ e tr', GetMetrics s ctx mreq tr
           = (Return ({| pb.MetricValues := [] |}, Some e), tr')
           ∧ validation_error e ∧ commands tr' = commands tr.
Proof.
  intros Href H.
  destruct (present_or_absent (pb.ScalerMetadata ref) "waitList") as [[wl Hw] | Hw];
    [| destruct (GetMetrics_no_waitList _ _ tr Href Hw) as (tr' & ? & ?);
       exists (MissingMetadata "waitList"), tr'; split_and!; [done | left; eauto | done]].
  destruct (present_or_absent (pb.ScalerMetadata ref) "activeList") as [[al Ha] | Ha];
    [| destruct (GetMetrics_no_activeList _ _ tr _ Href Hw Ha) as (tr' & ? & ?);
       exists (MissingMetadata "activeList"), tr'; split_and!; [done | left; eauto | done]].
  destruct (present_or_absent (pb.ScalerMetadata ref) "maxPods") as [[v Hm] | Hm];
    [| destruct (GetMetrics_no_maxPods _ _ tr _ _ Href Hw Ha Hm) as (tr' & ? & ?);
       exists (MissingMetadata "maxPods"), tr'; split_and!; [done | left; eauto | done]].
  destruct H as [H | [H | [H | (v' & Hm' & Hbad)]]];
    try by destruct (absent_not_present _ _ _ H ltac:(eassumption)).
  assert (v' = v) as -> by (destruct Hm, Hm'; congruence).
  destruct (GetMetrics_invalid_maxPods _ _ tr _ _ _ Href Hw Ha Hm Hbad) as (tr' & ? & ?).
  exists (InvalidCeiling v), tr'. split_and!; [done | right; eauto | done].
Qed.

(** Once the metadata is resolved the first read goes out, whatever the
    store then answers. *)
Lemma IsActive_reads req tr waitList activeList :
  present (pb.ScalerMetadata req) "waitList" waitList →
  present (pb.ScalerMetadata req) "activeList" activeList →
  ∃ resp err tr' rest,
    IsActive s ctx req tr = (Return (resp, err), tr')
    ∧ commands tr' = commands tr ++ LLEN waitList :: rest.
Proof.
  intros Hw Ha.
  destruct (redis.llen_reply (redisClient s) ctx waitList (commands tr))
    as [w [e |]] eqn:Hrw.
  { destruct (IsActive_wait_fails _ tr _ _ _ _ Hw Ha Hrw) as (tr' & ? & ?).
    by repeat eexists. }
  destruct (redis.llen_reply (redisClient s) ctx activeList
              (commands tr ++ [LLEN waitList])) as [a [e |]] eqn:Hra.
  - destruct (IsActive_active_fails _ tr _ _ _ _ _ Hw Ha Hrw Hra) as (tr' & ? & ?).
    by repeat eexists.
  - destruct (IsActive_ok _ tr _ _ _ _ Hw Ha Hrw Hra) as (tr' & ? & ?).
    by repeat eexists.
Qed.

Lemma GetMetrics_reads mreq ref tr waitList activeList maxPods :
  pb.GetMetricsRequest_ScaledObjectRef mreq = Some ref →
  valid_metadata (pb.ScalerMetadata ref) waitList activeList maxPods →
  ∃ resp err tr' rest,
    GetMetrics s ctx mreq tr = (Return (resp, err), tr')
    ∧ commands tr' = commands tr ++ LLEN waitList :: rest.
Proof.
  intros Href Hvalid.
  destruct (redis.llen_reply (redisClient s) ctx waitList (commands tr))
    as [w [e |]] eqn:Hrw.
  { destruct (GetMetrics_wait_fails _ _ tr _ _ _ _ _ Href Hvalid Hrw) as (tr' & ? & ?).
    by repeat eexists. }
  destruct (redis.llen_reply (redisClient s) ctx activeList
              (commands tr ++ [LLEN waitList])) as [a [e |]] eqn:Hra.
  - destruct (GetMetrics_active_fails _ _ tr _ _ _ _ _ _ Href Hvalid Hrw Hra)
      as (tr' & ? & ?).
    by repeat eexists.
  - destruct (GetMetrics_ok _ _ tr _ _ _ _ _ Href Hvalid Hrw Hra) as (tr' & ? & ?).
    by repeat eexists.
Qed.

Lemma sent_something (cmds rest : list command) (cmd : command) :
  cmds ++ cmd :: rest ≠ cmds.
Proof.
  intros H. apply (f_equal length) in H. rewrite length_app in H. cbn in H. lia.
Qed.

(** *** The three operations side by side *)

Lemma call_IsActive ref tr resp err tr' :
  IsActive s ctx ref tr = (Return (resp, err), tr') →
  call s ctx OpIsActive ref tr = (Return err, tr').
Proof. intros H. unfold call, bind. by rewrite H. Qed.

Lemma call_GetMetricSpec ref tr :
  ∃ tr', call s ctx OpGetMetricSpec ref tr = (Return None, tr')
         ∧ commands tr' = commands tr.
Proof.
  unfold call, GetMetricSpec. run. eexists. split; [reflexivity |]. by sent.
Qed.

Lemma call_GetMetrics ref tr resp err tr' :
  GetMetrics s ctx (metrics_request ref) tr = (Return (resp, err), tr') →
  call s ctx OpGetMetrics ref tr = (Return err, tr').
Proof. intros H. unfold call, bind. by rewrite H. Qed.

Lemma call_resolution_fails op ref tr :
  resolution_fails op (pb.ScalerMetadata ref) →
  ∃ e tr', call s ctx op ref tr = (Return (Some e), tr')
           ∧ validation_error e ∧ commands tr' = commands tr.
Proof.
  intros [(key & Hin & Habs) | (-> & Hbad)].
  - destruct op; cbn in Hin.
    + destruct (IsActive_resolution_fails ref tr) as (k & tr' & Hrun & Hsent).
      { repeat (apply elem_of_cons in Hin as [-> | Hin]);
          [by left | by right | by apply elem_of_nil in Hin]. }
      exists (MissingMetadata k), tr'.
      split_and!; [by eapply call_IsActive | left; eauto | done].
    + by apply elem_of_nil in Hin.
    + destruct (GetMetrics_resolution_fails (metrics_request ref) ref tr eq_refl)
        as (e & tr' & Hrun & He & Hsent).
      { repeat (apply elem_of_cons in Hin as [-> | Hin]);
          [by left | by right; left | by right; right; left
          | by apply elem_of_nil in Hin]. }
      exists e, tr'. split_and!; [by eapply call_GetMetrics | done | done].
  - destruct (GetMetrics_resolution_fails (metrics_request ref) ref tr eq_refl)
      as (e & tr' & Hrun & He & Hsent).
    { by do 3 right. }
    exists e, tr'. split_and!; [by eapply call_GetMetrics | done | done].
Qed.

Lemma resolution_fails_dec op (metadata : gmap string string) :
  resolution_fails op metadata
  ∨ match op with
    | OpIsActive =>
        ∃ waitList activeList,
          present metadata "waitList" waitList
          ∧ present metadata "activeList" activeList
    | OpGetMetricSpec => True
    | OpGetMetrics =>
        ∃ waitList activeList maxPods,
          valid_metadata metadata waitList activeList maxPods
    end.
Proof.
  unfold resolution_fails. destruct op; [| by right |].
  - destruct (present_or_absent metadata "waitList") as [[wl Hw] | Hw];
      [| left; left; exists "waitList"%string; split; [set_solver | done]].
    destruct (present_or_absent metadata "activeList") as [[al Ha] | Ha];
      [| left; left; exists "activeList"%string; split; [set_solver | done]].
    right. eauto.
  - destruct (present_or_absent metadata "waitList") as [[wl Hw] | Hw];
      [| left; left; exists "waitList"%string; split; [set_solver | done]].
    destruct (present_or_absent metadata "activeList") as [[al Ha] | Ha];
      [| left; left; exists "activeList"%string; split; [set_solver | done]].
    destruct (present_or_absent metadata "maxPods") as [[v Hm] | Hm];
      [| left; left; exists "maxPods"%string; split; [set_solver | done]].
    destruct (positive_int64_dec v) as [[n Hn] | Hbad]; [| left; right; eauto].
    right. exists wl, al, n. unfold valid_metadata. eauto 10.
Qed.

(** C5. For every call to [IsActive] or [GetMetrics] whose metadata does not
    resolve (a key the operation resolves is missing or empty, or the
    ceiling read by [GetMetrics] is invalid), the call returns a validation
    error and sends no command to the store: the commands sent when the
    call returns are those sent when it started. ([GetMetricSpec] resolves
    nothing, so that its resolution never fails.) *)
Theorem resolution_failure_sends_nothing op ref tr :
  resolution_fails op (pb.ScalerMetadata ref) →
  ∃ e, fst (call s ctx op ref tr) = Return (Some e)
       ∧ validation_error e
       ∧ commands (snd (call s ctx op ref tr)) = commands tr.
Proof.
  intros Hfail.
  destruct (call_resolution_fails op ref tr Hfail) as (e & tr' & -> & He & Hsent).
  by exists e.
Qed.

Lemma absentb_true (metadata : gmap string string) key :
  absentb metadata key = true → absent metadata key.
Proof.
  unfold absentb, absent. destruct (metadata !! key) as [v |]; [| by left].
  intros ->%String.eqb_eq. by right.
Qed.

Lemma absentb_false (metadata : gmap string string) key :
  absentb metadata key = false → ∃ value, present metadata key value.
Proof.
  unfold absentb, present. destruct (metadata !! key) as [v |]; [| done].
  intros Hne%String.eqb_neq. eauto.
Qed.

(** C10. When several of the keys an operation resolves are missing or
    empty, the error returned names the first of them in the order
    waitList, activeList, maxPods for [GetMetrics] and waitList, activeList
    for [IsActive], whatever the other keys hold; the operation being a
    function of its input, the same input yields the same error. *)
Theorem first_absent_key_is_reported op ref tr key :
  first_absent (pb.ScalerMetadata ref) (resolved_keys op) = Some key →
  fst (call s ctx op ref tr) = Return (Some (MissingMetadata key))
  ∧ commands (snd (call s ctx op ref tr)) = commands tr.
Proof.
  destruct op; cbn [resolved_keys first_absent]; [| done |].
  - destruct (absentb _ "waitList") eqn:Hw.
    { intros [= <-]. apply absentb_true in Hw.
      destruct (IsActive_no_waitList ref tr Hw) as (tr' & Hrun & Hsent).
      by rewrite (call_IsActive _ _ _ _ _ Hrun). }
    apply absentb_false in Hw as [wl Hw].
    destruct (absentb _ "activeList") eqn:Ha; [| done].
    intros [= <-]. apply absentb_true in Ha.
    destruct (IsActive_no_activeList ref tr _ Hw Ha) as (tr' & Hrun & Hsent).
    by rewrite (call_IsActive _ _ _ _ _ Hrun).
  - destruct (absentb _ "waitList") eqn:Hw.
    { intros [= <-]. apply absentb_true in Hw.
      destruct (GetMetrics_no_waitList (metrics_request ref) ref tr eq_refl Hw) as (tr' & Hrun & Hsent).
      by rewrite (call_GetMetrics _ _ _ _ _ Hrun). }
    apply absentb_false in Hw as [wl Hw].
    destruct (absentb _ "activeList") eqn:Ha.
    { intros [= <-]. apply absentb_true in Ha.
      destruct (GetMetrics_no_activeList (metrics_request ref) ref tr _ eq_refl Hw Ha)
        as (tr' & Hrun & Hsent).
      by rewrite (call_GetMetrics _ _ _ _ _ Hrun). }
    apply absentb_false in Ha as [al Ha].
    destruct (absentb _ "maxPods") eqn:Hm; [| done].
    intros [= <-]. apply absentb_true in Hm.
    destruct (GetMetrics_no_maxPods (metrics_request ref) ref tr _ _ eq_refl Hw Ha Hm)
      as (tr' & Hrun & Hsent).
    by rewrite (call_GetMetrics _ _ _ _ _ Hrun).
Qed.

(** C4, as the program has it. Each operation requires the keys it
    resolves and no others: [GetMetrics] requires waitList, activeList and a
    maxPods that encodes a strictly positive integer; [IsActive] requires
    waitList and activeList only, and neither reads nor validates maxPods;
    [GetMetricSpec] reads no metadata and never fails. An operation returns
    a validation error, before any read of the store, exactly when one of
    its own requirements is not met; no default is applied. *)
Theorem operation_requires_its_keys op ref tr :
  resolution_fails op (pb.ScalerMetadata ref)
  ↔ ∃ e, fst (call s ctx op ref tr) = Return (Some e)
         ∧ validation_error e
         ∧ commands (snd (call s ctx op ref tr)) = commands tr.
Proof.
  split.
  - intros Hfail.
    destruct (call_resolution_fails op ref tr Hfail) as (e & tr' & -> & He & Hsent).
    by exists e.
  - intros (e & Hrun & He & Hsent).
    destruct (resolution_fails_dec op (pb.ScalerMetadata ref)) as [| Hok]; [done |].
    exfalso. destruct op.
    + destruct Hok as (wl & al & Hw & Ha).
      destruct (IsActive_reads ref tr _ _ Hw Ha) as (resp & err & tr' & rest & Hr & Hs).
      rewrite (call_IsActive _ _ _ _ _ Hr) in Hsent. cbn in Hsent.
      rewrite Hs in Hsent. by apply sent_something in Hsent.
    + destruct (call_GetMetricSpec ref tr) as (tr' & Hr & _).
      by rewrite Hr in Hrun.
    + destruct Hok as (wl & al & n & Hvalid).
      destruct (GetMetrics_reads (metrics_request ref) ref tr _ _ _ eq_refl Hvalid)
        as (resp & err & tr' & rest & Hr & Hs).
      rewrite (call_GetMetrics _ _ _ _ _ Hr) in Hsent. cbn in Hsent.
      rewrite Hs in Hsent. by apply sent_something in Hsent.
Qed.

(** C6. With both queue names resolved, [GetMetrics] rejects the value of
    maxPods exactly when it does not encode a strictly positive 64-bit
    integer: it then returns the error "maxPods must be a positive integer,
    got: <value>" without reading the store, and otherwise goes on to read
    the store. "0", "-5" and "abc" are rejected with that error; "1" and
    "1000000" are accepted. *)
Theorem maxPods_rejected_iff_not_positive mreq ref tr waitList activeList value :
  pb.GetMetricsRequest_ScaledObjectRef mreq = Some ref →
  present (pb.ScalerMetadata ref) "waitList" waitList →
  present (pb.ScalerMetadata ref) "activeList" activeList →
  present (pb.ScalerMetadata ref) "maxPods" value →
  ((¬ ∃ n, positive_int64 value n)
   ↔ fst (GetMetrics s ctx mreq tr)
       = Return ({| pb.MetricValues := [] |}, Some (InvalidCeiling value))
     ∧ commands (snd (GetMetrics s ctx mreq tr)) = commands tr)
  ∧ ((∃ n, positive_int64 value n)
     ↔ ∃ rest, commands (snd (GetMetrics s ctx mreq tr))
               = commands tr ++ LLEN waitList :: rest)
  ∧ Forall (λ v, fst (GetMetrics (sample_store ∅) Incoming
                        (sample_request (queue_metadata v)) [])
                 = Return ({| pb.MetricValues := [] |}, Some (InvalidCeiling v)))
      ["0"; "-5"; "abc"]%string
  ∧ Forall (λ v, ∃ n, fst (GetMetrics (sample_store ∅) Incoming
                             (sample_request (queue_metadata v)) [])
                      = Return ({| pb.MetricValues :=
                                     [{| pb.MetricValue_MetricName := "bull_queue_length";
                                         pb.MetricValue_MetricValue := n |}] |}, None))
      ["1"; "1000000"]%string.
Proof.
  intros Href Hw Ha Hm.
  assert (Hrej : (¬ ∃ n, positive_int64 value n) →
                 fst (GetMetrics s ctx mreq tr)
                 = Return ({| pb.MetricValues := [] |}, Some (InvalidCeiling value))
                 ∧ commands (snd (GetMetrics s ctx mreq tr)) = commands tr).
  { intros Hbad.
    by destruct (GetMetrics_invalid_maxPods _ _ tr _ _ _ Href Hw Ha Hm Hbad)
      as (tr' & -> & ?). }
  assert (Hacc : (∃ n, positive_int64 value n) →
                 ∃ rest, commands (snd (GetMetrics s ctx mreq tr))
                         = commands tr ++ LLEN waitList :: rest).
  { intros [n Hn].
    destruct (GetMetrics_reads mreq ref tr waitList activeList n Href)
      as (resp & err & tr' & rest & -> & ?); [| by exists rest].
    unfold valid_metadata. eauto. }
  split_and!.
  - split; [done |]. intros [_ Hsent] Hpos.
    destruct (Hacc Hpos) as [rest Hrest]. rewrite Hrest in Hsent.
    by apply sent_something in Hsent.
  - split; [done |]. intros [rest Hrest].
    destruct (positive_int64_dec value) as [| Hbad]; [done |].
    destruct (Hrej Hbad) as [_ Hsent]. rewrite Hrest in Hsent.
    by apply sent_something in Hsent.
  - repeat constructor.
  - repeat constructor; eexists; vm_compute; reflexivity.
Qed.

End Handlers.

(** ** Startup *)

Lemma listen_address : (":" +:+ fmt.d 8080) = ":8080"%string.
Proof. reflexivity. Qed.

Lemma getEnv_set (w : World) key value tr :
  environ w !! key = Some value → value ≠ ""%string →
  getEnv w key tr = (Return value, tr).
Proof.
  intros Hk Hne. unfold getEnv, os.Getenv. rewrite Hk. unfold default; cbn [from_option id].
  by destruct (String.eqb_spec value "").
Qed.

(** C3, as the program has it. When startup gets as far as the handshake
    (the port is bound, REDIS_HOST and REDIS_PORT are set, the port number
    is valid) and the ping fails, the process exits with status 1 before
    the scaler is registered and before [Serve] is entered, so that no call
    is ever served; the listening socket is bound by then, since [main]
    binds it first and only then connects to the store. *)
Theorem ping_failure_exits_before_serving (w : World) host port e :
  listen_reply w "tcp" ":8080" = None →
  environ w !! "REDIS_HOST"%string = Some host → host ≠ ""%string →
  environ w !! "REDIS_PORT"%string = Some port → port ≠ ""%string →
  validatePortNumber port = None →
  redis.ping_reply (redis_at w (host +:+ ":" +:+ port)) Background [] = Some e →
  main w [] = (Exit 1, [Listening "tcp" ":8080"; Sent PING;
                        Logged ("Failed to connect to Redis: " +:+ Error e)])
  ∧ exit_status (fst (main w [])) = 1
  ∧ first_index is_listening (snd (main w [])) = Some 0%nat
  ∧ first_index is_ping (snd (main w [])) = Some 1%nat
  ∧ first_index is_serving (snd (main w [])) = None.
Proof.
  intros Hlisten Hhost Hhost' Hport Hport' Hvalid Hping.
  assert (Hmain : main w [] = (Exit 1, [Listening "tcp" ":8080"; Sent PING;
                     Logged ("Failed to connect to Redis: " +:+ Error e)])).
  { unfold main, net.Listen. cbn zeta. rewrite listen_address, Hlisten.
    unfold grpc.NewServer, NewServer. run.
    rewrite (getEnv_set _ _ _ _ Hhost Hhost'), (getEnv_set _ _ _ _ Hport Hport').
    rewrite Hvalid. unfold redis.NewClient. cbn. by rewrite Hping. }
  rewrite Hmain. by split_and!.
Qed.

(** ** The statements at concrete inputs *)

Lemma queue_metadata_valid :
  valid_metadata (queue_metadata "10")
    "bull:test-queue:wait" "bull:test-queue:active" 10.
Proof.
  unfold valid_metadata, present, positive_int64.
  split_and!; [reflexivity | discriminate | reflexivity | discriminate |].
  exists "10"%string. split_and!; [reflexivity | discriminate | reflexivity | lia | ].
  by vm_compute.
Defined.

(** Three pending and two in-flight jobs under a ceiling of ten give 5. *)
Lemma GetMetrics_value_witness :
  ∃ value,
    fst (GetMetrics
           (sample_store {[ "bull:test-queue:wait"%string := 3;
                            "bull:test-queue:active"%string := 2 ]})
           Incoming (sample_request (queue_metadata "10")) [])
    = Return ({| pb.MetricValues :=
                   [{| pb.MetricValue_MetricName := "bull_queue_length";
                       pb.MetricValue_MetricValue := value |}] |}, None)
    ∧ value = Z.min (Int64.add 3 2) 10
    ∧ (0 <= 3 → 0 <= 2 → 3 + 2 <= Int64.max_int →
       value = Z.min (3 + 2) 10 ∧ (3 + 2 <= 10 → value = 3 + 2)).
Proof.
  apply (GetMetrics_value _ Incoming _ (sample_ref (queue_metadata "10")) []
           "bull:test-queue:wait" "bull:test-queue:active" 10 3 2);
    [reflexivity | exact queue_metadata_valid | reflexivity | reflexivity].
Defined.

Lemma IsActive_result_witness :
  ∃ result,
    fst (IsActive
           (sample_store {[ "bull:test-queue:wait"%string := 3;
                            "bull:test-queue:active"%string := 2 ]})
           Incoming (sample_ref (queue_metadata "10")) [])
    = Return ({| pb.Result := result |}, None)
    ∧ result = (Int64.add 3 2 >? 0)
    ∧ (3 = 0 → 2 = 0 → result = false)
    ∧ (0 <= 3 → 0 <= 2 → 3 + 2 <= Int64.max_int → (result = true ↔ 3 + 2 > 0)).
Proof.
  apply (IsActive_result _ Incoming (sample_ref (queue_metadata "10")) []
           "bull:test-queue:wait" "bull:test-queue:active" 3 2);
    [split; [reflexivity | discriminate] | split; [reflexivity | discriminate]
    | reflexivity | reflexivity].
Defined.

Lemma IsActive_failure_surfaces_witness :
  ∃ resp,
    fst (IsActive (unavailable_store (errorString "i/o timeout")) Incoming
           (sample_ref (queue_metadata "10")) [])
    = Return (resp, Some (errorString "i/o timeout")).
Proof.
  apply IsActive_failure_surfaces.
  apply (fails_wait_read _ _ _ _ "bull:test-queue:wait" "bull:test-queue:active" 0);
    [split; [reflexivity | discriminate] | split; [reflexivity | discriminate]
    | reflexivity].
Defined.

Lemma resolution_failure_sends_nothing_witness :
  ∃ e, fst (call (sample_store ∅) Incoming OpGetMetrics
              (sample_ref {[ "waitList"%string := "bull:test-queue:wait"%string;
                             "maxPods"%string := "10"%string ]}) [])
       = Return (Some e)
       ∧ validation_error e
       ∧ commands (snd (call (sample_store ∅) Incoming OpGetMetrics
                          (sample_ref {[ "waitList"%string := "bull:test-queue:wait"%string;
                                         "maxPods"%string := "10"%string ]}) []))
         = commands [].
Proof.
  apply resolution_failure_sends_nothing.
  left. exists "activeList"%string. split.
  - apply list_elem_of_further, list_elem_of_here.
  - left. reflexivity.
Defined.

(** Both activeList and maxPods are missing: activeList is the one named. *)
Lemma first_absent_key_is_reported_witness :
  fst (call (sample_store ∅) Incoming OpGetMetrics
         (sample_ref {[ "waitList"%string := "bull:test-queue:wait"%string ]}) [])
  = Return (Some (MissingMetadata "activeList"))
  ∧ commands (snd (call (sample_store ∅) Incoming OpGetMetrics
                     (sample_ref {[ "waitList"%string := "bull:test-queue:wait"%string ]})
                     []))
    = commands [].
Proof. apply first_absent_key_is_reported. reflexivity. Defined.

Lemma maxPods_rejected_iff_not_positive_witness :
  fst (GetMetrics (sample_store ∅) Incoming (sample_request (queue_metadata "abc")) [])
  = Return ({| pb.MetricValues := [] |}, Some (InvalidCeiling "abc"))
  ∧ commands (snd (GetMetrics (sample_store ∅) Incoming
                     (sample_request (queue_metadata "abc")) []))
    = commands [].
Proof.
  apply (maxPods_rejected_iff_not_positive (sample_store ∅) Incoming
           (sample_request (queue_metadata "abc")) (sample_ref (queue_metadata "abc")) []
           "bull:test-queue:wait" "bull:test-queue:active" "abc");
    [reflexivity | split; [reflexivity | discriminate]
    | split; [reflexivity | discriminate] | split; [reflexivity | discriminate] |].
  intros (n & Hn & _). discriminate Hn.
Defined.

Lemma ping_failure_exits_before_serving_witness :
  main (sample_world (Some (errorString "connection refused"))) []
  = (Exit 1, [Listening "tcp" ":8080"; Sent PING;
              Logged "Failed to connect to Redis: connection refused"])
  ∧ exit_status (fst (main (sample_world (Some (errorString "connection refused"))) []))
    = 1
  ∧ first_index is_listening
      (snd (main (sample_world (Some (errorString "connection refused"))) []))
    = Some 0%nat
  ∧ first_index is_ping
      (snd (main (sample_world (Some (errorString "connection refused"))) []))
    = Some 1%nat
  ∧ first_index is_serving
      (snd (main (sample_world (Some (errorString "connection refused"))) []))
    = None.
Proof.
  apply (ping_failure_exits_before_serving
           (sample_world (Some (errorString "connection refused")))
           "localhost" "6379" (errorString "connection refused"));
    [reflexivity | reflexivity | discriminate | reflexivity | discriminate
    | reflexivity | reflexivity].
Defined.

(** ** Where the program departs from what is said of it *)

(** The handshake fails, the process exits with status 1, and yet the
    listening socket was bound: it is the first event of the run, the ping
    the second. *)
Lemma socket_bound_before_handshake :
  let w := sample_world (Some (errorString "connection refused")) in
  redis.ping_reply (redis_at w "localhost:6379") Background []
  = Some (errorString "connection refused")
  ∧ exit_status (fst (main w [])) = 1
  ∧ first_index is_listening (snd (main w [])) ≠ None
  ∧ snd (main w [])
    = [Listening "tcp" ":8080"; Sent PING;
       Logged "Failed to connect to Redis: connection refused"].
Proof. vm_compute. by split_and!. Qed.

(** maxPods is absent and [IsActive] answers with a nil error; every key is
    absent and [GetMetricSpec] answers with a nil error. *)
Lemma keys_not_required_by_every_operation :
  let metadata : gmap string string :=
    {[ "waitList"%string := "bull:test-queue:wait"%string;
       "activeList"%string := "bull:test-queue:active"%string ]} in
  (absent metadata "maxPods"
   ∧ fst (call (sample_store ∅) Incoming OpIsActive (sample_ref metadata) [])
     = Return None)
  ∧ (absent ∅ "waitList" ∧ absent ∅ "activeList" ∧ absent ∅ "maxPods"
     ∧ fst (call (sample_store ∅) Incoming OpGetMetricSpec (sample_ref ∅) [])
       = Return None).
Proof.
  cbv zeta. split_and!; try (by left); by vm_compute.
Qed.

(** * Further properties of the program *)

(** ** Port numbers *)

Section Ports.

Import strconv.

Lemma Atoi_digit_spec (c : ascii) :
  if is_digit c
  then ((byte c - byte "0") mod 256 >? 9) = false
       ∧ (byte c - byte "0") mod 256 = byte c - 48
       ∧ (0 <=? byte c - 48) = true ∧ (byte c - 48 <=? 9) = true
  else ((byte c - byte "0") mod 256 >? 9) = true.
Proof.
  destruct c as [[] [] [] [] [] [] [] []]; vm_compute; by repeat split.
Qed.

Lemma pow10_length_pos (s : string) : 0 < 10 ^ Z.of_nat (String.length s).
Proof. apply Z.pow_pos_nonneg; lia. Qed.

Lemma pow10_length_cons c (s : string) :
  10 ^ Z.of_nat (String.length (String c s)) = 10 * 10 ^ Z.of_nat (String.length s).
Proof.
  cbn [String.length]. rewrite Nat2Z.inj_succ, Z.pow_succ_r by lia. done.
Qed.

(** On a short string the loop of the fast path computes the decimal value:
    nothing wraps. *)
Lemma Atoi_digits_spec s : ∀ n,
  0 <= n → (n + 1) * 10 ^ Z.of_nat (String.length s) <= 10 ^ 18 →
  Atoi_digits s n = digits_value s n.
Proof.
  induction s as [| c s IH]; intros n Hn Hsmall; [done |].
  rewrite pow10_length_cons in Hsmall.
  pose proof (pow10_length_pos s) as Hpos.
  cbn [Atoi_digits digits_value].
  pose proof (Atoi_digit_spec c) as Hc. destruct (is_digit c); [| by rewrite Hc].
  destruct Hc as (-> & -> & Hlo & Hhi).
  set (d := byte c - 48) in *.
  assert (Hn10 : (n + 1) * 10 <= 10 ^ 18) by nia.
  rewrite (Int64_wrap_id (n * 10))
    by (unfold Int64.in_range, Int64.min_int, Int64.max_int; lia).
  rewrite Int64_wrap_id
    by (unfold Int64.in_range, Int64.min_int, Int64.max_int; lia).
  apply IH; [lia | nia].
Qed.

Lemma digits_value_bound s : ∀ n v,
  0 <= n → digits_value s n = Some v →
  v < (n + 1) * 10 ^ Z.of_nat (String.length s).
Proof.
  induction s as [| c s IH]; intros n v Hn; cbn [digits_value].
  - intros [= <-]. cbn. lia.
  - rewrite pow10_length_cons. pose proof (pow10_length_pos s) as Hpos.
    pose proof (Atoi_digit_spec c) as Hc. destruct (is_digit c); [| done].
    destruct Hc as (_ & _ & Hlo & Hhi). intros Hv.
    apply IH in Hv; [| lia]. nia.
Qed.

Lemma short_pow (s : string) :
  Z.of_nat (String.length s) < 19 → 10 ^ Z.of_nat (String.length s) <= 10 ^ 18.
Proof. intros H. apply Z.pow_le_mono_r; lia. Qed.

(** [Atoi] succeeds exactly on the decimal notations of the 64-bit integers,
    on its fast path as on its slow path. *)
Lemma Atoi_spec (s : string) (n : Z) :
  Atoi s = (n, None) ↔ decimal_value s = Some n ∧ Int64.in_range n.
Proof.
  unfold Atoi.
  destruct ((0 <? Z.of_nat (String.length s)) && (Z.of_nat (String.length s) <? 19))
    eqn:Hfast.
  - destruct s as [| c0 rest]; [done |].
    apply andb_prop in Hfast as [_ Hlen%Z.ltb_lt].
    pose proof (short_pow _ Hlen) as Hpow. rewrite pow10_length_cons in Hpow.
    pose proof (pow10_length_pos rest) as Hpos.
    unfold decimal_value.
    assert (Hsigned : ∀ neg : bool,
      (Z.of_nat (String.length rest) <? 1) = false →
      (match Atoi_digits rest 0 with
       | Some m => (if neg then Int64.neg m else m, None)
       | None => (0, Some (syntaxError "Atoi" (String c0 rest)))
       end = (n, None))
      ↔ ((if neg then Z.opp <$> unsigned_value rest else unsigned_value rest) = Some n
         ∧ Int64.in_range n)).
    { intros neg Hne. rewrite Atoi_digits_spec by lia.
      assert (Hu : unsigned_value rest = digits_value rest 0).
      { destruct rest; [by cbn in Hne | done]. }
      rewrite Hu. destruct (digits_value rest 0) as [v |] eqn:Hv.
      - pose proof (digits_value_mono rest 0 v ltac:(lia) Hv) as Hv0.
        apply digits_value_bound in Hv; [| lia].
        assert (Hr : Int64.in_range v ∧ Int64.in_range (- v))
          by (unfold Int64.in_range, Int64.min_int, Int64.max_int; lia).
        destruct neg; cbn [fmap option_fmap option_map].
        + unfold Int64.neg. rewrite Int64_wrap_id by apply Hr.
          split; [intros [= <-]; split; [done | apply Hr] | by intros [[= <-] _]].
        + split; [intros [= <-]; split; [done | apply Hr] | by intros [[= <-] _]].
      - destruct neg; (split; [done | by intros [[=] _]]). }
    destruct (Ascii.eqb_spec c0 "+") as [-> | Hplus]; cbn [Ascii.eqb orb andb].
    + destruct (Z.ltb_spec (Z.of_nat (String.length rest)) 1) as [Hempty | Hne].
      * destruct rest; [| cbn in Hempty; lia]. split; [done | by intros [[=] _]].
      * rewrite orb_true_r. cbn [andb].
        destruct (Z.ltb_spec (Z.of_nat (String.length rest)) 1); [lia |].
        replace (Ascii.eqb "+" "-") with false by done.
        apply (Hsigned false). lia.
    + destruct (Ascii.eqb_spec c0 "-") as [-> | Hminus]; cbn [orb andb].
      * destruct (Z.ltb_spec (Z.of_nat (String.length rest)) 1) as [Hempty | Hne].
        -- destruct rest; [| cbn in Hempty; lia]. split; [done | by intros [[=] _]].
        -- apply (Hsigned true). lia.
      * (* no sign: the digits are those of the whole string *)
        rewrite Atoi_digits_spec by (rewrite ?pow10_length_cons; lia).
        change (unsigned_value (String c0 rest))
          with (digits_value (String c0 rest) 0).
        destruct (digits_value (String c0 rest) 0) as [v |] eqn:Hv.
        -- pose proof (digits_value_mono (String c0 rest) 0 v ltac:(lia) Hv) as Hv0.
           apply digits_value_bound in Hv; [| lia]. rewrite pow10_length_cons in Hv.
           assert (Hr : Int64.in_range v)
             by (unfold Int64.in_range, Int64.min_int, Int64.max_int; lia).
           split; [intros [= <-]; by split | by intros [[= <-] _]].
        -- split; [done | by intros [[=] _]].
  - rewrite <- ParseInt_spec. destruct (ParseInt s) as [i [e |]]; [by split |].
    split; by intros [= <-].
Qed.

End Ports.

(** X1. REDIS_PORT is accepted exactly when it is the decimal notation of an
    integer from 1 to 65535. A notation of a 64-bit integer outside that
    range is refused with the number in the message; anything else (no
    digits, a character that is not a digit, a number beyond 64 bits) is
    refused as not a number, with the text as given. *)
Theorem validatePortNumber_spec (portStr : string) :
  (validatePortNumber portStr = None
   ↔ ∃ n, decimal_value portStr = Some n ∧ 1 <= n <= 65535)
  ∧ (∀ n, decimal_value portStr = Some n → Int64.in_range n →
          ¬ (1 <= n <= 65535) →
          validatePortNumber portStr
          = Some (errorString ("port must be between 1 and 65535, got: " +:+ fmt.d n)))
  ∧ ((∀ n, decimal_value portStr = Some n → ¬ Int64.in_range n) →
     validatePortNumber portStr
     = Some (errorString ("port must be a valid number, got: " +:+ portStr))).
Proof.
  unfold validatePortNumber.
  destruct (strconv.Atoi portStr) as [port [e |]] eqn:HA.
  - assert (Hno : ∀ n, decimal_value portStr = Some n → ¬ Int64.in_range n).
    { intros n Hn Hr. assert (strconv.Atoi portStr = (n, None)) as HA'
        by (by apply Atoi_spec). by rewrite HA in HA'. }
    split_and!.
    + split; [done |]. intros (n & Hn & Hr). destruct (Hno n Hn).
      unfold Int64.in_range, Int64.min_int, Int64.max_int. lia.
    + intros n Hn Hr _. by destruct (Hno n Hn).
    + done.
  - apply Atoi_spec in HA as [Hport Hr].
    destruct ((port <=? 0) || (port >? 65535)) eqn:Hb; split_and!.
    + split; [done |]. intros (n & Hn & Hn').
      assert (n = port) as -> by congruence. lia.
    + intros n Hn _ _. by assert (n = port) as -> by congruence.
    + intros Hno. by destruct (Hno port Hport).
    + split; [| done]. intros _. exists port. split; [done | lia].
    + intros n Hn _ Hout. assert (n = port) as -> by congruence. lia.
    + intros Hno. by destruct (Hno port Hport).
Qed.

(** ** Startup, path by path *)

Section Startup.

Variable w : World.

Lemma getEnv_unset key tr :
  env_unset w key →
  getEnv w key tr = (Exit 1, tr ++ [Logged ("Missing required env var: " +:+ key)]).
Proof. intros [Hk | Hk]; unfold getEnv, os.Getenv; by rewrite Hk. Qed.

Lemma env_set_or_unset key : (∃ value, env_set w key value) ∨ env_unset w key.
Proof.
  unfold env_set, env_unset. destruct (environ w !! key) as [value |]; [| by right; left].
  destruct (decide (value = ""%string)) as [-> | Hne]; [by right; right | left; eauto].
Qed.

Lemma env_set_unset key value : env_set w key value → env_unset w key → False.
Proof. intros [Hv Hne] [Hk | Hk]; congruence. Qed.

Lemma env_set_agree key v1 v2 : env_set w key v1 → env_set w key v2 → v1 = v2.
Proof. intros [H1 _] [H2 _]. congruence. Qed.

Lemma NewServer_host_unset tr :
  env_unset w "REDIS_HOST" →
  NewServer w tr = (Exit 1, tr ++ [Logged "Missing required env var: REDIS_HOST"]).
Proof. intros Hh. unfold NewServer, bind. by rewrite (getEnv_unset _ _ Hh). Qed.

Lemma NewServer_port_unset tr host :
  env_set w "REDIS_HOST" host → env_unset w "REDIS_PORT" →
  NewServer w tr = (Exit 1, tr ++ [Logged "Missing required env var: REDIS_PORT"]).
Proof.
  intros [Hh Hh'] Hp. unfold NewServer, bind.
  by rewrite (getEnv_set _ _ _ _ Hh Hh'), (getEnv_unset _ _ Hp).
Qed.

Lemma NewServer_port_invalid tr host port e :
  env_set w "REDIS_HOST" host → env_set w "REDIS_PORT" port →
  validatePortNumber port = Some e →
  NewServer w tr = (Exit 1, tr ++ [Logged ("Invalid REDIS_PORT: " +:+ Error e)]).
Proof.
  intros [Hh Hh'] [Hp Hp'] Hbad. unfold NewServer, bind.
  by rewrite (getEnv_set _ _ _ _ Hh Hh'), (getEnv_set _ _ _ _ Hp Hp'), Hbad.
Qed.

Lemma NewServer_ping_fails tr host port e :
  env_set w "REDIS_HOST" host → env_set w "REDIS_PORT" port →
  validatePortNumber port = None →
  redis.ping_reply (redis_at w (host +:+ ":" +:+ port)) Background (commands tr) = Some e →
  NewServer w tr
  = (Exit 1, tr ++ [Sent PING; Logged ("Failed to connect to Redis: " +:+ Error e)]).
Proof.
  intros [Hh Hh'] [Hp Hp'] Hok Hping. unfold NewServer, bind.
  rewrite (getEnv_set _ _ _ _ Hh Hh'), (getEnv_set _ _ _ _ Hp Hp'), Hok.
  unfold redis.NewClient, redis.Ping. cbn [redis.Addr]. rewrite Hping.
  unfold log.Fatalf. by rewrite <- app_assoc.
Qed.

Lemma NewServer_connects tr host port :
  env_set w "REDIS_HOST" host → env_set w "REDIS_PORT" port →
  validatePortNumber port = None →
  redis.ping_reply (redis_at w (host +:+ ":" +:+ port)) Background (commands tr) = None →
  NewServer w tr
  = (Return {| redisClient := redis_at w (host +:+ ":" +:+ port) |},
     tr ++ [Sent PING;
            Logged ("Connected to Redis at " +:+ host +:+ ":" +:+ port);
            Logged "External scaler ready - queue configuration will come from ScaledJob metadata"]).
Proof.
  intros [Hh Hh'] [Hp Hp'] Hok Hping. unfold NewServer, bind.
  rewrite (getEnv_set _ _ _ _ Hh Hh'), (getEnv_set _ _ _ _ Hp Hp'), Hok.
  unfold redis.NewClient, redis.Ping. cbn [redis.Addr]. rewrite Hping.
  unfold log.Printf, emit, ret. by rewrite <- !app_assoc.
Qed.

Lemma main_listen_fails e :
  listen_reply w "tcp" ":8080" = Some e →
  main w [] = (Exit 1, [Logged ("Failed to listen: " +:+ Error e)]).
Proof.
  intros Hl. unfold main, net.Listen. cbn zeta. by rewrite listen_address, Hl.
Qed.

(** After the bind, [main] does what [NewServer] does until it returns. *)
Lemma main_after_listen :
  listen_reply w "tcp" ":8080" = None →
  main w []
  = match NewServer w [Listening "tcp" ":8080"] with
    | (Return srv, tr) =>
        (Exit 1, tr ++ [Registered; Logged "Starting gRPC server on :8080";
                        Serving;
                        Logged ("Failed to serve: " +:+ Error (serve_reply w))])
    | (Exit code, tr) => (Exit code, tr)
    | (Panic, tr) => (Panic, tr)
    end.
Proof.
  intros Hl. unfold main, net.Listen. cbn zeta. rewrite listen_address, Hl.
  unfold grpc.NewServer, grpc.RegisterExternalScalerServer, grpc.Serve. run.
  change ([] ++ [Listening "tcp" ":8080"]) with [Listening "tcp" ":8080"].
  destruct (NewServer w [Listening "tcp" ":8080"]) as [[srv | code |] tr]; [| done | done].
  change (":" +:+ fmt.d 8080) with ":8080"%string.
  change ("Starting gRPC server on " +:+ ":8080") with "Starting gRPC server on :8080"%string.
  unfold log.Fatalf. by rewrite <- !app_assoc.
Qed.

Lemma configuration_dec :
  configuration_fails w ∨ ∃ host port, configuration_ok w host port.
Proof.
  unfold configuration_fails, configuration_ok.
  destruct (listen_reply w "tcp" ":8080") as [e |] eqn:Hl; [left; left; eauto |].
  destruct (env_set_or_unset "REDIS_HOST") as [[host Hh] | Hh]; [| by left; right; left].
  destruct (env_set_or_unset "REDIS_PORT") as [[port Hp] | Hp];
    [| by left; right; right; left].
  destruct (validatePortNumber port) as [e |] eqn:Hv.
  - left. do 3 right. eauto.
  - right. exists host, port. done.
Qed.

Lemma configuration_exclusive host port :
  configuration_fails w → configuration_ok w host port → False.
Proof.
  intros [[e He] | [Hh | [Hp | (port' & e & Hp & He)]]] (Hl & Hh' & Hp' & Hv).
  - congruence.
  - exact (env_set_unset _ _ Hh' Hh).
  - exact (env_set_unset _ _ Hp' Hp).
  - rewrite (env_set_agree _ _ _ Hp Hp') in He. congruence.
Qed.

(** The run of [main] when its configuration stops it: exit status 1, and
    a trace in which nothing follows the bind but one line of the log. *)
Lemma main_configuration_fails :
  configuration_fails w →
  ∃ line,
    main w [] = (Exit 1, [Logged line])
    ∨ main w [] = (Exit 1, [Listening "tcp" ":8080"; Logged line]).
Proof.
  intros [[e He] | Hrest].
  { eexists. left. by apply main_listen_fails. }
  destruct (listen_reply w "tcp" ":8080") as [e |] eqn:Hl.
  { eexists. left. by apply main_listen_fails. }
  rewrite (main_after_listen Hl).
  destruct (env_set_or_unset "REDIS_HOST") as [[host Hh] | Hh];
    [| eexists; right; by rewrite (NewServer_host_unset _ Hh)].
  destruct (env_set_or_unset "REDIS_PORT") as [[port Hp] | Hp];
    [| eexists; right; by rewrite (NewServer_port_unset _ _ Hh Hp)].
  destruct Hrest as [Hh' | [Hp' | (port' & e & Hp' & He)]].
  - by destruct (env_set_unset _ _ Hh Hh').
  - by destruct (env_set_unset _ _ Hp Hp').
  - rewrite (env_set_agree _ _ _ Hp' Hp) in He.
    eexists. right. by rewrite (NewServer_port_invalid _ _ _ _ Hh Hp He).
Qed.

Lemma main_handshake_fails host port e :
  configuration_ok w host port →
  redis.ping_reply (redis_at w (host +:+ ":" +:+ port)) Background [] = Some e →
  main w [] = (Exit 1, [Listening "tcp" ":8080"; Sent PING;
                        Logged ("Failed to connect to Redis: " +:+ Error e)]).
Proof.
  intros (Hl & Hh & Hp & Hv) Hping. rewrite (main_after_listen Hl).
  by rewrite (NewServer_ping_fails [Listening "tcp" ":8080"] _ _ _ Hh Hp Hv Hping).
Qed.

Lemma main_serves host port :
  configuration_ok w host port →
  redis.ping_reply (redis_at w (host +:+ ":" +:+ port)) Background [] = None →
  main w []
  = (Exit 1,
     [Listening "tcp" ":8080"; Sent PING;
      Logged ("Connected to Redis at " +:+ host +:+ ":" +:+ port);
      Logged "External scaler ready - queue configuration will come from ScaledJob metadata";
      Registered; Logged "Starting gRPC server on :8080"; Serving;
      Logged ("Failed to serve: " +:+ Error (serve_reply w))]).
Proof.
  intros (Hl & Hh & Hp & Hv) Hping. rewrite (main_after_listen Hl).
  by rewrite (NewServer_connects [Listening "tcp" ":8080"] _ _ Hh Hp Hv Hping).
Qed.

End Startup.

(** ** Startup, as a whole *)

(** X2. When its configuration stops it (the port cannot be bound, REDIS_HOST
    or REDIS_PORT is not set or is empty, or REDIS_PORT is not a port
    number), the process exits with status 1 without having sent anything
    to the store, registered the scaler or entered [Serve]. *)
Theorem configuration_failure_contacts_nothing (w : World) :
  configuration_fails w →
  exit_status (fst (main w [])) = 1
  ∧ commands (snd (main w [])) = []
  ∧ first_index is_registered (snd (main w [])) = None
  ∧ first_index is_serving (snd (main w [])) = None.
Proof.
  intros Hfail. by destruct (main_configuration_fails w Hfail) as (line & [-> | ->]).
Qed.

(** X3. [Serve] is entered only after everything before it went through: the
    port was bound, both variables were set, the port number was valid and
    the store answered the ping; the bind, the ping, the registration and
    [Serve] then come in that order. *)
Theorem serving_requires_handshake (w : World) :
  first_index is_serving (snd (main w [])) ≠ None →
  ∃ host port,
    configuration_ok w host port
    ∧ redis.ping_reply (redis_at w (host +:+ ":" +:+ port)) Background [] = None
    ∧ first_index is_listening (snd (main w [])) = Some 0%nat
    ∧ first_index is_ping (snd (main w [])) = Some 1%nat
    ∧ first_index is_registered (snd (main w [])) = Some 4%nat
    ∧ first_index is_serving (snd (main w [])) = Some 6%nat.
Proof.
  intros Hserving. destruct (configuration_dec w) as [Hfail | (host & port & Hok)].
  { by destruct (main_configuration_fails w Hfail) as (line & [Hm | Hm]);
      rewrite Hm in Hserving. }
  exists host, port.
  destruct (redis.ping_reply (redis_at w (host +:+ ":" +:+ port)) Background [])
    as [e |] eqn:Hping.
  { by rewrite (main_handshake_fails w _ _ _ Hok Hping) in Hserving. }
  rewrite (main_serves w _ _ Hok Hping). by split_and!.
Qed.

(** X4. Startup does not end quietly: whenever [main] ends without having
    entered [Serve], the process has exited with status 1, through
    [log.Fatalf], and the scaler was never registered. *)
Theorem startup_serves_or_exits (w : World) :
  first_index is_serving (snd (main w [])) = None →
  fst (main w []) = Exit 1
  ∧ first_index is_registered (snd (main w [])) = None.
Proof.
  intros Hnot. destruct (configuration_dec w) as [Hfail | (host & port & Hok)].
  { by destruct (main_configuration_fails w Hfail) as (line & [-> | ->]). }
  destruct (redis.ping_reply (redis_at w (host +:+ ":" +:+ port)) Background [])
    as [e |] eqn:Hping.
  - by rewrite (main_handshake_fails w _ _ _ Hok Hping).
  - by rewrite (main_serves w _ _ Hok Hping) in Hnot.
Qed.

(** X5. [NewServer] returns a server only after a successful ping: both
    variables are set, the port number is valid, the server returned holds
    the client for the address REDIS_HOST:REDIS_PORT, and the call of
    [Ping] on that client, under the background context, returned nil. *)
Theorem NewServer_returns_connected (w : World) (tr tr' : trace) (srv : server) :
  NewServer w tr = (Return srv, tr') →
  ∃ host port,
    env_set w "REDIS_HOST" host ∧ env_set w "REDIS_PORT" port
    ∧ validatePortNumber port = None
    ∧ srv = {| redisClient := redis_at w (host +:+ ":" +:+ port) |}
    ∧ redis.ping_reply (redisClient srv) Background (commands tr) = None.
Proof.
  intros Hrun.
  destruct (env_set_or_unset w "REDIS_HOST") as [[host Hh] | Hh];
    [| by rewrite (NewServer_host_unset w _ Hh) in Hrun].
  destruct (env_set_or_unset w "REDIS_PORT") as [[port Hp] | Hp];
    [| by rewrite (NewServer_port_unset w _ _ Hh Hp) in Hrun].
  destruct (validatePortNumber port) as [e |] eqn:Hv;
    [by rewrite (NewServer_port_invalid w _ _ _ _ Hh Hp Hv) in Hrun |].
  destruct (redis.ping_reply (redis_at w (host +:+ ":" +:+ port)) Background
              (commands tr)) as [e |] eqn:Hping;
    [by rewrite (NewServer_ping_fails w _ _ _ _ Hh Hp Hv Hping) in Hrun |].
  rewrite (NewServer_connects w _ _ _ Hh Hp Hv Hping) in Hrun.
  injection Hrun as <- <-. exists host, port. by split_and!.
Qed.

(** ** The handlers, case by case *)

Lemma length_append (s1 s2 : string) :
  String.length (s1 +:+ s2) = (String.length s1 + String.length s2)%nat.
Proof. induction s1 as [| c s1 IH]; simpl; [done | by rewrite IH]. Qed.

Lemma append_cancel_r (t : string) : ∀ s1 s2, s1 +:+ t = s2 +:+ t → s1 = s2.
Proof.
  induction s1 as [| c s1 IH]; intros [| c' s2] H; [done | | |].
  - apply (f_equal String.length) in H. rewrite !length_append in H. simpl in H. lia.
  - apply (f_equal String.length) in H. rewrite !length_append in H. simpl in H. lia.
  - simpl in H. injection H as -> H. f_equal. by apply IH.
Qed.

Section Cases.

Variables (s : server) (ctx : context).

Implicit Types (req ref : pb.ScaledObjectRef) (mreq : pb.GetMetricsRequest) (tr : trace).

(** Every run of [IsActive]: it returns, in one of four ways. *)
Lemma IsActive_cases req tr :
  ∃ resp err tr' sent,
    IsActive s ctx req tr = (Return (resp, err), tr')
    ∧ commands tr' = commands tr ++ sent
    ∧ ((∃ key, err = Some (MissingMetadata key) ∧ pb.Result resp = false
               ∧ sent = []
               ∧ (absent (pb.ScalerMetadata req) "waitList"
                  ∨ absent (pb.ScalerMetadata req) "activeList"))
       ∨ ∃ waitList activeList,
           present (pb.ScalerMetadata req) "waitList" waitList
           ∧ present (pb.ScalerMetadata req) "activeList" activeList
           ∧ ((∃ w e, redis.llen_reply (redisClient s) ctx waitList (commands tr)
                      = (w, Some e)
                      ∧ err = Some e ∧ pb.Result resp = false
                      ∧ sent = [LLEN waitList])
              ∨ ∃ w, redis.llen_reply (redisClient s) ctx waitList (commands tr)
                     = (w, None)
                     ∧ ((∃ a e, redis.llen_reply (redisClient s) ctx activeList
                                  (commands tr ++ [LLEN waitList]) = (a, Some e)
                                ∧ err = Some e ∧ pb.Result resp = false
                                ∧ sent = [LLEN waitList; LLEN activeList])
                        ∨ ∃ a, redis.llen_reply (redisClient s) ctx activeList
                                 (commands tr ++ [LLEN waitList]) = (a, None)
                               ∧ err = None
                               ∧ pb.Result resp = (Int64.add w a >? 0)
                               ∧ sent = [LLEN waitList; LLEN activeList]))).
Proof.
  destruct (present_or_absent (pb.ScalerMetadata req) "waitList") as [[wl Hw] | Hw].
  2: { destruct (IsActive_no_waitList s ctx req tr Hw) as (tr' & Hrun & Hsent).
       do 3 eexists. exists []. split_and!; [done | by rewrite app_nil_r |].
       left. eexists. split_and!; try done. by left. }
  destruct (present_or_absent (pb.ScalerMetadata req) "activeList") as [[al Ha] | Ha].
  2: { destruct (IsActive_no_activeList s ctx req tr _ Hw Ha) as (tr' & Hrun & Hsent).
       do 3 eexists. exists []. split_and!; [done | by rewrite app_nil_r |].
       left. eexists. split_and!; try done. by right. }
  destruct (redis.llen_reply (redisClient s) ctx wl (commands tr))
    as [w [e |]] eqn:Hrw.
  { destruct (IsActive_wait_fails s ctx req tr _ _ _ _ Hw Ha Hrw) as (tr' & Hrun & Hsent).
    do 4 eexists. split_and!; [done | done |].
    right. exists wl, al. split_and!; [done | done |]. left. by exists w, e. }
  destruct (redis.llen_reply (redisClient s) ctx al (commands tr ++ [LLEN wl]))
    as [a [e |]] eqn:Hra.
  - destruct (IsActive_active_fails s ctx req tr _ _ _ _ _ Hw Ha Hrw Hra)
      as (tr' & Hrun & Hsent).
    do 4 eexists. split_and!; [done | done |].
    right. exists wl, al. split_and!; [done | done |]. right. exists w.
    split; [done |]. left. by exists a, e.
  - destruct (IsActive_ok s ctx req tr _ _ _ _ Hw Ha Hrw Hra) as (tr' & Hrun & Hsent).
    do 4 eexists. split_and!; [done | done |].
    right. exists wl, al. split_and!; [done | done |]. right. exists w.
    split; [done |]. right. by exists a.
Qed.

(** Every run of [GetMetrics] on a request that carries its scale target. *)
Lemma GetMetrics_cases mreq ref tr :
  pb.GetMetricsRequest_ScaledObjectRef mreq = Some ref →
  ∃ resp err tr' sent,
    GetMetrics s ctx mreq tr = (Return (resp, err), tr')
    ∧ commands tr' = commands tr ++ sent
    ∧ ((∃ e, err = Some e ∧ validation_error e ∧ pb.MetricValues resp = []
             ∧ sent = []
             ∧ resolution_fails OpGetMetrics (pb.ScalerMetadata ref))
       ∨ ∃ waitList activeList maxPods,
           valid_metadata (pb.ScalerMetadata ref) waitList activeList maxPods
           ∧ ((∃ w e, redis.llen_reply (redisClient s) ctx waitList (commands tr)
                      = (w, Some e)
                      ∧ err = Some e ∧ pb.MetricValues resp = []
                      ∧ sent = [LLEN waitList])
              ∨ ∃ w, redis.llen_reply (redisClient s) ctx waitList (commands tr)
                     = (w, None)
                     ∧ ((∃ a e, redis.llen_reply (redisClient s) ctx activeList
                                  (commands tr ++ [LLEN waitList]) = (a, Some e)
                                ∧ err = Some e ∧ pb.MetricValues resp = []
                                ∧ sent = [LLEN waitList; LLEN activeList])
                        ∨ ∃ a, redis.llen_reply (redisClient s) ctx activeList
                                 (commands tr ++ [LLEN waitList]) = (a, None)
                               ∧ err = None
                               ∧ pb.MetricValues resp
                                 = [{| pb.MetricValue_MetricName := "bull_queue_length";
                                       pb.MetricValue_MetricValue :=
                                         Z.min (Int64.add w a) maxPods |}]
                               ∧ sent = [LLEN waitList; LLEN activeList]))).
Proof.
  intros Href.
  destruct (resolution_fails_dec OpGetMetrics (pb.ScalerMetadata ref))
    as [Hfail | (wl & al & n & Hvalid)].
  { assert (Hfail' := Hfail).
    destruct Hfail' as [(key & Hin & Habs) | (_ & Hbad)].
    - destruct (GetMetrics_resolution_fails s ctx mreq ref tr Href)
        as (e & tr' & Hrun & He & Hsent).
      { cbn in Hin. repeat (apply elem_of_cons in Hin as [-> | Hin]);
          [by left | by right; left | by right; right; left
          | by apply elem_of_nil in Hin]. }
      do 2 eexists. exists tr', []. split_and!; [done | by rewrite app_nil_r |].
      left. by exists e.
    - destruct (GetMetrics_resolution_fails s ctx mreq ref tr Href)
        as (e & tr' & Hrun & He & Hsent).
      { by do 3 right. }
      do 2 eexists. exists tr', []. split_and!; [done | by rewrite app_nil_r |].
      left. by exists e. }
  destruct (redis.llen_reply (redisClient s) ctx wl (commands tr))
    as [w [e |]] eqn:Hrw.
  { destruct (GetMetrics_wait_fails s ctx mreq ref tr _ _ _ _ _ Href Hvalid Hrw)
      as (tr' & Hrun & Hsent).
    do 4 eexists. split_and!; [done | done |].
    right. exists wl, al, n. split; [done |]. left. by exists w, e. }
  destruct (redis.llen_reply (redisClient s) ctx al (commands tr ++ [LLEN wl]))
    as [a [e |]] eqn:Hra.
  - destruct (GetMetrics_active_fails s ctx mreq ref tr _ _ _ _ _ _ Href Hvalid Hrw Hra)
      as (tr' & Hrun & Hsent).
    do 4 eexists. split_and!; [done | done |].
    right. exists wl, al, n. split; [done |]. right. exists w.
    split; [done |]. left. by exists a, e.
  - destruct (GetMetrics_ok s ctx mreq ref tr _ _ _ _ _ Href Hvalid Hrw Hra)
      as (tr' & Hrun & Hsent).
    do 4 eexists. split_and!; [done | done |].
    right. exists wl, al, n. split; [done |]. right. exists w.
    split; [done |]. right. exists a. split_and!; [done | done | | done].
    cbn. do 2 f_equal. destruct (Z.gtb_spec (Int64.add w a) n); lia.
Qed.

Lemma valid_metadata_agree (metadata : gmap string string) wl al n wl' al' n' :
  valid_metadata metadata wl al n → valid_metadata metadata wl' al' n' →
  wl' = wl ∧ al' = al ∧ n' = n.
Proof.
  intros ([Hw _] & [Ha _] & v & [Hv _] & [Hn _]) ([Hw' _] & [Ha' _] & v' & [Hv' _] & [Hn' _]).
  assert (v' = v) as -> by congruence. split_and!; congruence.
Qed.

End Cases.

(** The metric values of a response: none, or the one. *)
Lemma GetMetrics_all_or_nothing_aux (s : server) (ctx : context)
    (mreq : pb.GetMetricsRequest) (ref : pb.ScaledObjectRef) (tr : trace) :
  pb.GetMetricsRequest_ScaledObjectRef mreq = Some ref →
  match fst (GetMetrics s ctx mreq tr) with
  | Return (resp, _) => pb.MetricValues resp
  | _ => []
  end = []
  ∨ ∃ value,
      match fst (GetMetrics s ctx mreq tr) with
      | Return (resp, _) => pb.MetricValues resp
      | _ => []
      end = [{| pb.MetricValue_MetricName := "bull_queue_length";
                pb.MetricValue_MetricValue := value |}].
Proof.
  intros Href.
  destruct (GetMetrics_cases s ctx mreq ref tr Href)
    as (resp & err & tr' & sent & -> & _ & Hcases). cbn.
  destruct Hcases as [(e & _ & _ & -> & _) | (wl & al & n & _ & Hreads)]; [by left |].
  destruct Hreads as [(w & e & _ & _ & -> & _) | (w & _ & Hsecond)]; [by left |].
  destruct Hsecond as [(a & e & _ & _ & -> & _) | (a & _ & _ & -> & _)];
    [by left | right; eauto].
Qed.

(** ** The handlers, as a whole *)

Section Calls.

Variables (s : server) (ctx : context).

Implicit Types (req ref : pb.ScaledObjectRef) (mreq : pb.GetMetricsRequest) (tr : trace).

(** X7. [GetMetrics] answers all or nothing: with an error the response holds
    no metric value, and without an error it holds exactly one, named
    "bull_queue_length". *)
Theorem GetMetrics_all_or_nothing mreq ref tr :
  pb.GetMetricsRequest_ScaledObjectRef mreq = Some ref →
  ∃ resp err,
    fst (GetMetrics s ctx mreq tr) = Return (resp, err)
    ∧ ((∃ e, err = Some e ∧ pb.MetricValues resp = [])
       ∨ (err = None
          ∧ ∃ value, pb.MetricValues resp
                     = [{| pb.MetricValue_MetricName := "bull_queue_length";
                           pb.MetricValue_MetricValue := value |}])).
Proof.
  intros Href.
  destruct (GetMetrics_cases s ctx mreq ref tr Href)
    as (resp & err & tr' & sent & -> & _ & Hcases).
  exists resp, err. split; [done |].
  destruct Hcases as [(e & -> & _ & -> & _) | (wl & al & n & _ & Hreads)];
    [left; eauto |].
  destruct Hreads as [(w & e & _ & -> & -> & _) | (w & _ & Hsecond)]; [left; eauto |].
  destruct Hsecond as [(a & e & _ & -> & -> & _) | (a & _ & -> & -> & _)];
    [left; eauto | right; eauto].
Qed.

(** X8. Whatever the store answers, a value reported by [GetMetrics] is at most
    the ceiling given in the metadata, and is a 64-bit integer. *)
Theorem GetMetrics_never_exceeds_ceiling mreq ref tr waitList activeList maxPods :
  pb.GetMetricsRequest_ScaledObjectRef mreq = Some ref →
  valid_metadata (pb.ScalerMetadata ref) waitList activeList maxPods →
  ∀ resp err,
    fst (GetMetrics s ctx mreq tr) = Return (resp, err) →
    Forall (λ mv, pb.MetricValue_MetricValue mv <= maxPods
                  ∧ Int64.in_range (pb.MetricValue_MetricValue mv))
      (pb.MetricValues resp).
Proof.
  intros Href Hvalid resp err Hrun.
  destruct (GetMetrics_cases s ctx mreq ref tr Href)
    as (resp' & err' & tr' & sent & Hrun' & _ & Hcases).
  rewrite Hrun' in Hrun. injection Hrun as -> ->.
  destruct Hcases as [(e & _ & _ & -> & _) | (wl & al & n & Hvalid' & Hreads)];
    [by constructor |].
  destruct (valid_metadata_agree _ _ _ _ _ _ _ Hvalid Hvalid') as (-> & -> & ->).
  destruct Hreads as [(w & e & _ & _ & -> & _) | (w & _ & Hsecond)]; [by constructor |].
  destruct Hsecond as [(a & e & _ & _ & -> & _) | (a & _ & _ & -> & _)];
    [by constructor |].
  constructor; [| constructor]. cbn. split; [lia |].
  destruct Hvalid as (_ & _ & v & _ & _ & Hn).
  pose proof (Int64_wrap_range (w + a)) as Hr. fold (Int64.add w a) in Hr.
  unfold Int64.in_range, Int64.min_int, Int64.max_int in *. lia.
Qed.

(** X9. The two operations agree: on the same metadata and the same answers of
    the store, [IsActive] says true exactly when the value reported by
    [GetMetrics] is positive. *)
Theorem IsActive_agrees_with_GetMetrics mreq ref tr waitList activeList maxPods w a :
  pb.GetMetricsRequest_ScaledObjectRef mreq = Some ref →
  valid_metadata (pb.ScalerMetadata ref) waitList activeList maxPods →
  redis.llen_reply (redisClient s) ctx waitList (commands tr) = (w, None) →
  redis.llen_reply (redisClient s) ctx activeList (commands tr ++ [LLEN waitList])
    = (a, None) →
  ∃ result value,
    fst (IsActive s ctx ref tr) = Return ({| pb.Result := result |}, None)
    ∧ fst (GetMetrics s ctx mreq tr)
      = Return ({| pb.MetricValues :=
                     [{| pb.MetricValue_MetricName := "bull_queue_length";
                         pb.MetricValue_MetricValue := value |}] |}, None)
    ∧ (result = true ↔ 0 < value).
Proof.
  intros Href Hvalid Hrw Hra. assert (Hvalid' := Hvalid).
  destruct Hvalid' as (Hw & Ha & v & _ & _ & Hn).
  destruct (IsActive_ok s ctx ref tr _ _ _ _ Hw Ha Hrw Hra) as (tr1 & -> & _).
  destruct (GetMetrics_ok s ctx mreq ref tr _ _ _ _ _ Href Hvalid Hrw Hra)
    as (tr2 & -> & _).
  do 2 eexists. split_and!; [reflexivity | reflexivity |].
  destruct (Z.gtb_spec (Int64.add w a) 0), (Z.gtb_spec (Int64.add w a) maxPods);
    split; (done || lia).
Qed.

(** X10. Every metric value that [GetMetrics] reports bears the name of a metric
    that [GetMetricSpec] declares, whatever the two requests are. *)
Theorem metric_name_matches_spec mreq tr req tr0 respM errM respS errS :
  fst (GetMetrics s ctx mreq tr) = Return (respM, errM) →
  fst (GetMetricSpec s ctx req tr0) = Return (respS, errS) →
  ∀ mv, mv ∈ pb.MetricValues respM →
        pb.MetricValue_MetricName mv
        ∈ (pb.MetricSpec_MetricName <$> pb.MetricSpecs respS).
Proof.
  intros HM HS mv Hmv.
  assert (HS' : fst (GetMetricSpec s ctx req tr0)
                = Return ({| pb.MetricSpecs :=
                               [{| pb.MetricSpec_MetricName := "bull_queue_length";
                                   pb.TargetSize := 1 |}] |}, None)).
  { unfold GetMetricSpec. by run. }
  rewrite HS' in HS. injection HS as <- <-.
  destruct (pb.GetMetricsRequest_ScaledObjectRef mreq) as [ref |] eqn:Href;
    [| by rewrite (GetMetrics_nil s ctx mreq tr Href) in HM].
  destruct (GetMetrics_all_or_nothing_aux s ctx mreq ref tr Href) as [Hnone | [value Hone]].
  - rewrite HM in Hnone. cbn in Hnone. rewrite Hnone in Hmv. by apply elem_of_nil in Hmv.
  - rewrite HM in Hone. cbn in Hone. rewrite Hone in Hmv.
    apply list_elem_of_singleton in Hmv as ->. cbn. apply list_elem_of_here.
Qed.

End Calls.

(** ** Reads of the store *)

Section Reads.

Variables (s : server) (ctx : context).

Implicit Types (req ref : pb.ScaledObjectRef) (mreq : pb.GetMetricsRequest) (tr : trace).

(** X11. A read of the store that fails aborts [GetMetrics]: the error of
    the store is returned as it is, with no metric value, whichever of the
    two reads fails; and when it is the first that fails, the client is
    asked for nothing but the length of the list that waitList names. *)
Theorem GetMetrics_store_failure mreq ref tr waitList activeList maxPods :
  pb.GetMetricsRequest_ScaledObjectRef mreq = Some ref →
  valid_metadata (pb.ScalerMetadata ref) waitList activeList maxPods →
  (∀ w e,
     redis.llen_reply (redisClient s) ctx waitList (commands tr) = (w, Some e) →
     fst (GetMetrics s ctx mreq tr) = Return ({| pb.MetricValues := [] |}, Some e)
     ∧ ∃ sent, commands (snd (GetMetrics s ctx mreq tr)) = commands tr ++ sent
               ∧ Forall (λ cmd, cmd = LLEN waitList) sent)
  ∧ (∀ w a e,
       redis.llen_reply (redisClient s) ctx waitList (commands tr) = (w, None) →
       redis.llen_reply (redisClient s) ctx activeList (commands tr ++ [LLEN waitList])
         = (a, Some e) →
       fst (GetMetrics s ctx mreq tr) = Return ({| pb.MetricValues := [] |}, Some e)).
Proof.
  intros Href Hvalid. split.
  - intros w e Hrw.
    destruct (GetMetrics_wait_fails s ctx mreq ref tr _ _ _ _ _ Href Hvalid Hrw)
      as (tr' & -> & Hsent).
    split; [done |]. exists [LLEN waitList]. split; [done | by repeat constructor].
  - intros w a e Hrw Hra.
    by destruct (GetMetrics_active_fails s ctx mreq ref tr _ _ _ _ _ _ Href Hvalid Hrw Hra)
      as (tr' & -> & ?).
Qed.

(** X12. [IsActive] always returns, and never ends the process. It answers true
    only without an error, after two successful reads whose sum, taken in
    [int64], is positive; so that with an error the answer it carries is
    false. *)
Theorem IsActive_true_means_work req tr :
  ∃ resp err,
    fst (IsActive s ctx req tr) = Return (resp, err)
    ∧ (pb.Result resp = true →
       err = None
       ∧ ∃ waitList activeList w a,
           present (pb.ScalerMetadata req) "waitList" waitList
           ∧ present (pb.ScalerMetadata req) "activeList" activeList
           ∧ redis.llen_reply (redisClient s) ctx waitList (commands tr) = (w, None)
           ∧ redis.llen_reply (redisClient s) ctx activeList
               (commands tr ++ [LLEN waitList]) = (a, None)
           ∧ 0 < Int64.add w a)
    ∧ (err ≠ None → pb.Result resp = false).
Proof.
  destruct (IsActive_cases s ctx req tr)
    as (resp & err & tr' & sent & Hrun & Hsent & Hcases).
  exists resp, err. rewrite Hrun. split; [done |].
  destruct Hcases as [(key & _ & Hres & _) | (wl & al & Hw & Ha & Hreads)];
    [split; [by rewrite Hres | done] |].
  destruct Hreads as [(w & e & _ & _ & Hres & _) | (w & Hrw & Hsecond)];
    [split; [by rewrite Hres | done] |].
  destruct Hsecond as [(a & e & _ & _ & Hres & _) | (a & Hra & -> & Hres & _)];
    [split; [by rewrite Hres | done] |].
  split; [| done]. intros Htrue. split; [done |].
  exists wl, al, w, a. split_and!; try done. rewrite Hres in Htrue. lia.
Qed.

Lemma queue_read_waitList (metadata : gmap string string) name :
  present metadata "waitList" name → queue_read metadata (LLEN name).
Proof. intros [Hk _]. exists "waitList"%string, name. split_and!; [by left | done | done]. Qed.

Lemma queue_read_activeList (metadata : gmap string string) name :
  present metadata "activeList" name → queue_read metadata (LLEN name).
Proof. intros [Hk _]. exists "activeList"%string, name. split_and!; [by right | done | done]. Qed.

(** X13. Whatever the operation and its input, the only thing a call asks
    of the store is the length of the list that waitList or activeList
    names: it issues no other command, and no ping; [GetMetricSpec] issues
    none at all. *)
Theorem calls_send_only_queue_reads (op : operation) ref tr :
  ∃ sent,
    commands (snd (call s ctx op ref tr)) = commands tr ++ sent
    ∧ Forall (queue_read (pb.ScalerMetadata ref)) sent
    ∧ (op = OpGetMetricSpec → sent = []).
Proof.
  destruct op.
  - destruct (IsActive_cases s ctx ref tr)
      as (resp & err & tr' & sent & Hrun & Hsent & Hcases).
    exists sent. rewrite (call_IsActive s ctx _ _ _ _ _ Hrun).
    split_and!; [done | | done].
    destruct Hcases as [(key & _ & _ & -> & _) | (wl & al & Hw & Ha & Hreads)];
      [constructor |].
    apply queue_read_waitList in Hw. apply queue_read_activeList in Ha.
    destruct Hreads as [(w & e & _ & _ & _ & ->) | (w & _ & Hsecond)];
      [by repeat constructor |].
    destruct Hsecond as [(a & e & _ & _ & _ & ->) | (a & _ & _ & _ & ->)];
      by repeat constructor.
  - destruct (call_GetMetricSpec s ctx ref tr) as (tr' & -> & Hsent).
    exists []. split_and!; [by rewrite app_nil_r | constructor | done].
  - destruct (GetMetrics_cases s ctx (metrics_request ref) ref tr eq_refl)
      as (resp & err & tr' & sent & Hrun & Hsent & Hcases).
    exists sent. rewrite (call_GetMetrics s ctx _ _ _ _ _ Hrun).
    split_and!; [done | | done].
    destruct Hcases as [(e & _ & _ & _ & -> & _) | (wl & al & n & (Hw & Ha & _) & Hreads)];
      [constructor |].
    apply queue_read_waitList in Hw. apply queue_read_activeList in Ha.
    destruct Hreads as [(w & e & _ & _ & _ & ->) | (w & _ & Hsecond)];
      [by repeat constructor |].
    destruct Hsecond as [(a & e & _ & _ & _ & ->) | (a & _ & _ & _ & ->)];
      by repeat constructor.
Qed.

(** X14. [IsActive] looks at nothing in its request but the name and namespace
    of the scale target and the keys waitList and activeList: two requests
    that agree on these run alike, whatever else their metadata holds. *)
Theorem IsActive_reads_two_keys req req' tr :
  pb.Name req' = pb.Name req → pb.Namespace req' = pb.Namespace req →
  pb.ScalerMetadata req' !! "waitList"%string = pb.ScalerMetadata req !! "waitList"%string →
  pb.ScalerMetadata req' !! "activeList"%string
    = pb.ScalerMetadata req !! "activeList"%string →
  IsActive s ctx req' tr = IsActive s ctx req tr.
Proof.
  intros Hname Hns Hw Ha. unfold IsActive, getMetadataValue.
  by rewrite Hname, Hns, Hw, Ha.
Qed.

(** X15. [GetMetrics] looks at nothing in its request but the name and namespace
    of the scale target and the keys waitList, activeList and maxPods: the
    metric name asked for and all other metadata are ignored. *)
Theorem GetMetrics_reads_three_keys mreq mreq' ref ref' tr :
  pb.GetMetricsRequest_ScaledObjectRef mreq = Some ref →
  pb.GetMetricsRequest_ScaledObjectRef mreq' = Some ref' →
  pb.Name ref' = pb.Name ref → pb.Namespace ref' = pb.Namespace ref →
  pb.ScalerMetadata ref' !! "waitList"%string = pb.ScalerMetadata ref !! "waitList"%string →
  pb.ScalerMetadata ref' !! "activeList"%string
    = pb.ScalerMetadata ref !! "activeList"%string →
  pb.ScalerMetadata ref' !! "maxPods"%string = pb.ScalerMetadata ref !! "maxPods"%string →
  GetMetrics s ctx mreq' tr = GetMetrics s ctx mreq tr.
Proof.
  intros Href Href' Hname Hns Hw Ha Hm. unfold GetMetrics, getMetadataValue.
  by rewrite Href, Href', Hname, Hns, Hw, Ha, Hm.
Qed.

End Reads.

(** X16. The error of [getMetadataValue] identifies the key: two failed
    resolutions return the same error only for the same key, and that error
    is never the one that reports an invalid ceiling. *)
Theorem missing_key_is_identified (metadata1 metadata2 : gmap string string)
    (key1 key2 value1 value2 : string) (e : error) :
  getMetadataValue metadata1 key1 = (value1, Some e) →
  getMetadataValue metadata2 key2 = (value2, Some e) →
  key1 = key2 ∧ ∀ value, e ≠ InvalidCeiling value.
Proof.
  intros H1 H2.
  assert (Hfail : ∀ (metadata : gmap string string) key value,
            getMetadataValue metadata key = (value, Some e) →
            e = MissingMetadata key).
  { intros metadata key value H.
    destruct (present_or_absent metadata key) as [[v Hv] | Ha].
    - by rewrite (getMetadataValue_present _ _ _ Hv) in H.
    - rewrite (getMetadataValue_absent _ _ Ha) in H. by injection H as _ <-. }
  apply Hfail in H1, H2. subst e. split.
  - unfold MissingMetadata in H2. simpl in H2. injection H2 as H2.
    exact (append_cancel_r " is missing or empty" key1 key2 H2).
  - intros value. unfold MissingMetadata, InvalidCeiling. simpl. discriminate.
Qed.

(** ** The further properties at concrete inputs *)

Lemma configuration_failure_contacts_nothing_witness :
  exit_status (fst (main bare_world [])) = 1
  ∧ commands (snd (main bare_world [])) = []
  ∧ first_index is_registered (snd (main bare_world [])) = None
  ∧ first_index is_serving (snd (main bare_world [])) = None.
Proof.
  apply configuration_failure_contacts_nothing.
  right. left. left. reflexivity.
Defined.

Lemma serving_requires_handshake_witness :
  ∃ host port,
    configuration_ok (sample_world None) host port
    ∧ redis.ping_reply (redis_at (sample_world None) (host +:+ ":" +:+ port))
        Background [] = None
    ∧ first_index is_listening (snd (main (sample_world None) [])) = Some 0%nat
    ∧ first_index is_ping (snd (main (sample_world None) [])) = Some 1%nat
    ∧ first_index is_registered (snd (main (sample_world None) [])) = Some 4%nat
    ∧ first_index is_serving (snd (main (sample_world None) [])) = Some 6%nat.
Proof. apply serving_requires_handshake. vm_compute. discriminate. Defined.

Lemma NewServer_returns_connected_witness :
  ∃ host port,
    env_set (sample_world None) "REDIS_HOST" host
    ∧ env_set (sample_world None) "REDIS_PORT" port
    ∧ validatePortNumber port = None
    ∧ {| redisClient := redis_at (sample_world None) "localhost:6379" |}
      = {| redisClient := redis_at (sample_world None) (host +:+ ":" +:+ port) |}
    ∧ redis.ping_reply
        (redisClient {| redisClient := redis_at (sample_world None) "localhost:6379" |})
        Background (commands []) = None.
Proof.
  apply (NewServer_returns_connected (sample_world None) []
           [Sent PING; Logged "Connected to Redis at localhost:6379";
            Logged "External scaler ready - queue configuration will come from ScaledJob metadata"]).
  reflexivity.
Defined.

(** No variable is set: [Serve] is not entered and the process exits. *)
Lemma startup_serves_or_exits_witness :
  fst (main bare_world []) = Exit 1
  ∧ first_index is_registered (snd (main bare_world [])) = None.
Proof. apply startup_serves_or_exits. reflexivity. Defined.

Lemma GetMetrics_all_or_nothing_witness :
  ∃ resp err,
    fst (GetMetrics (sample_store ∅) Incoming (sample_request (queue_metadata "abc")) [])
    = Return (resp, err)
    ∧ ((∃ e, err = Some e ∧ pb.MetricValues resp = [])
       ∨ (err = None
          ∧ ∃ value, pb.MetricValues resp
                     = [{| pb.MetricValue_MetricName := "bull_queue_length";
                           pb.MetricValue_MetricValue := value |}])).
Proof.
  apply (GetMetrics_all_or_nothing _ _ _ (sample_ref (queue_metadata "abc"))).
  reflexivity.
Defined.

(** Eight pending and four in-flight jobs under a ceiling of ten: 10. *)
Lemma GetMetrics_never_exceeds_ceiling_witness :
  Forall (λ mv, pb.MetricValue_MetricValue mv <= 10
                ∧ Int64.in_range (pb.MetricValue_MetricValue mv))
    [{| pb.MetricValue_MetricName := "bull_queue_length";
        pb.MetricValue_MetricValue := 10 |}].
Proof.
  apply (GetMetrics_never_exceeds_ceiling
           (sample_store {[ "bull:test-queue:wait"%string := 8;
                            "bull:test-queue:active"%string := 4 ]})
           Incoming (sample_request (queue_metadata "10"))
           (sample_ref (queue_metadata "10")) []
           "bull:test-queue:wait" "bull:test-queue:active" 10 eq_refl
           queue_metadata_valid
           {| pb.MetricValues :=
                [{| pb.MetricValue_MetricName := "bull_queue_length";
                    pb.MetricValue_MetricValue := 10 |}] |} None).
  reflexivity.
Defined.

Lemma IsActive_agrees_with_GetMetrics_witness :
  ∃ result value,
    fst (IsActive (sample_store ∅) Incoming (sample_ref (queue_metadata "10")) [])
    = Return ({| pb.Result := result |}, None)
    ∧ fst (GetMetrics (sample_store ∅) Incoming (sample_request (queue_metadata "10")) [])
      = Return ({| pb.MetricValues :=
                     [{| pb.MetricValue_MetricName := "bull_queue_length";
                         pb.MetricValue_MetricValue := value |}] |}, None)
    ∧ (result = true ↔ 0 < value).
Proof.
  apply (IsActive_agrees_with_GetMetrics (sample_store ∅) Incoming
           (sample_request (queue_metadata "10")) (sample_ref (queue_metadata "10")) []
           "bull:test-queue:wait" "bull:test-queue:active" 10 0 0);
    [reflexivity | exact queue_metadata_valid | reflexivity | reflexivity].
Defined.

Lemma metric_name_matches_spec_witness :
  pb.MetricValue_MetricName
    {| pb.MetricValue_MetricName := "bull_queue_length";
       pb.MetricValue_MetricValue := 0 |}
  ∈ (pb.MetricSpec_MetricName
       <$> [{| pb.MetricSpec_MetricName := "bull_queue_length"; pb.TargetSize := 1 |}]).
Proof.
  apply (metric_name_matches_spec (sample_store ∅) Incoming
           (sample_request (queue_metadata "10")) [] (sample_ref ∅) []
           {| pb.MetricValues :=
                [{| pb.MetricValue_MetricName := "bull_queue_length";
                    pb.MetricValue_MetricValue := 0 |}] |} None
           {| pb.MetricSpecs :=
                [{| pb.MetricSpec_MetricName := "bull_queue_length";
                    pb.TargetSize := 1 |}] |} None);
    [reflexivity | reflexivity | apply list_elem_of_here].
Defined.

Lemma GetMetrics_store_failure_witness :
  fst (GetMetrics (unavailable_store (errorString "i/o timeout")) Incoming
         (sample_request (queue_metadata "10")) [])
  = Return ({| pb.MetricValues := [] |}, Some (errorString "i/o timeout"))
  ∧ ∃ sent,
      commands (snd (GetMetrics (unavailable_store (errorString "i/o timeout")) Incoming
                       (sample_request (queue_metadata "10")) []))
      = commands [] ++ sent
      ∧ Forall (λ cmd, cmd = LLEN "bull:test-queue:wait") sent.
Proof.
  apply (GetMetrics_store_failure (unavailable_store (errorString "i/o timeout"))
           Incoming (sample_request (queue_metadata "10"))
           (sample_ref (queue_metadata "10")) []
           "bull:test-queue:wait" "bull:test-queue:active" 10
           eq_refl queue_metadata_valid) with 0.
  reflexivity.
Defined.

(** A request that also carries scalerAddress and a ceiling runs like one
    that carries the two queue names only. *)
Lemma IsActive_reads_two_keys_witness :
  IsActive (sample_store ∅) Incoming
    (sample_ref (<[ "scalerAddress"%string := "redis-bull-scaler:8080"%string ]>
                   (queue_metadata "10"))) []
  = IsActive (sample_store ∅) Incoming
      (sample_ref {[ "waitList"%string := "bull:test-queue:wait"%string;
                     "activeList"%string := "bull:test-queue:active"%string ]}) [].
Proof. apply IsActive_reads_two_keys; reflexivity. Defined.

Lemma GetMetrics_reads_three_keys_witness :
  GetMetrics (sample_store ∅) Incoming
    {| pb.GetMetricsRequest_ScaledObjectRef :=
         Some (sample_ref (<[ "scalerAddress"%string := "redis-bull-scaler:8080"%string ]>
                             (queue_metadata "10")));
       pb.GetMetricsRequest_MetricName := "another_metric" |} []
  = GetMetrics (sample_store ∅) Incoming (sample_request (queue_metadata "10")) [].
Proof.
  apply (GetMetrics_reads_three_keys _ _ _ _ (sample_ref (queue_metadata "10"))
           (sample_ref (<[ "scalerAddress"%string := "redis-bull-scaler:8080"%string ]>
                          (queue_metadata "10"))));
    reflexivity.
Defined.

Lemma missing_key_is_identified_witness :
  "maxPods"%string = "maxPods"%string
  ∧ ∀ value, MissingMetadata "maxPods" ≠ InvalidCeiling value.
Proof.
  apply (missing_key_is_identified ∅ {[ "maxPods"%string := ""%string ]}
           "maxPods" "maxPods" "" ""); reflexivity.
Defined.

(** maxPods is invalid, or missing, and [IsActive] goes on all the same: it
    asks the store for both lengths and returns a nil error. *)
Lemma IsActive_reads_without_ceiling :
  let without : gmap string string :=
    {[ "waitList"%string := "bull:test-queue:wait"%string;
       "activeList"%string := "bull:test-queue:active"%string ]} in
  (present (queue_metadata "abc") "maxPods" "abc"
   ∧ (¬ ∃ n, positive_int64 "abc" n)
   ∧ fst (call (sample_store ∅) Incoming OpIsActive
            (sample_ref (queue_metadata "abc")) []) = Return None
   ∧ commands (snd (call (sample_store ∅) Incoming OpIsActive
                      (sample_ref (queue_metadata "abc")) []))
     = [LLEN "bull:test-queue:wait"; LLEN "bull:test-queue:active"])
  ∧ (absent without "maxPods"
     ∧ fst (call (sample_store ∅) Incoming OpIsActive (sample_ref without) [])
       = Return None
     ∧ commands (snd (call (sample_store ∅) Incoming OpIsActive (sample_ref without) []))
       = [LLEN "bull:test-queue:wait"; LLEN "bull:test-queue:active"]).
Proof.
  cbv zeta. split; [split; [| split; [| split]] | split; [| split]].
  - split; [reflexivity | discriminate].
  - intros (n & Hn & _). discriminate Hn.
  - vm_compute. reflexivity.
  - vm_compute. reflexivity.
  - left. reflexivity.
  - vm_compute. reflexivity.
  - vm_compute. reflexivity.
Qed.
